(** * tlgrid: monthly Linke-turbidity grid builder

    A shallow embedding of [scripts/python/tlgrid.py] and the properties of
    its grid geometry ([centers]), climatology sampler ([lt_lookup]),
    quantizer (line 47 of [build_grid]) and binary encoder ([write_bin]).

    Python floats and NumPy [float64] values are IEEE-754 binary64 numbers;
    they are modelled by [spec_float] at precision 53 / emax 1024, with the
    correctly rounded operations of [SpecFloat].  The [float32] header fields
    written by [struct.pack("<ffff", ...)] use the same definitions at
    precision 24 / emax 128. *)

From Stdlib Require Import ZArith QArith Qround Qabs Lia Bool.
From Stdlib Require Import Floats.SpecFloat.
From stdpp Require Import base option list strings gmap.

Local Open Scope Z_scope.

(* ===================================================================== *)
(** ** Python exceptions and fallible computations *)
(* ===================================================================== *)

(** What a [TypeError] was raised for: a call whose arguments do not fit
    the callee's signature, or anything else (an operand of the wrong type
    inside the callee, for instance).  The class is the same; only the
    message tells them apart. *)
Inductive type_error_cause : Type :=
  | SignatureMismatch
  | OtherTypeError.

(** The exception classes the script can meet.  [OSError] stands for the
    class and its subclasses ([FileNotFoundError], [PermissionError], ...);
    [OtherError] stands for any class that is not listed (for instance what
    the climatology provider raises when a coordinate has no data). *)
Inductive exn : Type :=
  | TypeError (cause : type_error_cause)
  | ValueError
  | ZeroDivisionError
  | OverflowError
  | IndexError
  | StructError
  | OSError
  | OtherError (name : string).

#[global] Instance type_error_cause_eq_dec : EqDecision type_error_cause.
Proof. solve_decision. Defined.

#[global] Instance exn_eq_dec : EqDecision exn.
Proof. solve_decision. Defined.

Inductive result (A : Type) : Type :=
  | Ok (a : A)
  | Raise (e : exn).
Arguments Ok {A} a.
Arguments Raise {A} e.

#[global] Instance result_ret : MRet result := fun A a => Ok a.
#[global] Instance result_bind : MBind result := fun A B k r =>
  match r with
  | Ok a => k a
  | Raise e => Raise e
  end.

Definition is_ok {A} (r : result A) : bool :=
  match r with Ok _ => true | Raise _ => false end.

(* ===================================================================== *)
(** ** binary64 and binary32 arithmetic *)
(* ===================================================================== *)

(** Signed integer mantissa of a finite float. *)
Definition smant (s : bool) (m : positive) : Z := cond_Zopp s (Zpos m).

Definition is_nan (x : spec_float) : bool :=
  match x with S754_nan => true | _ => false end.

Definition is_inf (x : spec_float) : bool :=
  match x with S754_infinity _ => true | _ => false end.

Definition is_finite (x : spec_float) : bool :=
  match x with S754_zero _ | S754_finite _ _ _ => true | _ => false end.

Definition is_zero (x : spec_float) : bool :=
  match x with S754_zero _ => true | _ => false end.

Module F64.
Definition prec : Z := 53.
Definition emax : Z := 1024.

Definition add := SFadd prec emax.
Definition sub := SFsub prec emax.
Definition mul := SFmul prec emax.
Definition div := SFdiv prec emax.
Definition valid := valid_binary prec emax.

(** The float nearest to an integer ([float(k)] in Python, or the int
    operand of a mixed float/int NumPy operation). *)
Definition of_Z (k : Z) : spec_float := binary_normalize prec emax k 0 false.

(** A decimal literal [n / 10^d], correctly rounded. *)
Definition of_decimal (n : Z) (d : Z) : spec_float := div (of_Z n) (of_Z (10 ^ d)).
End F64.

Module F32.
Definition prec : Z := 24.
Definition emax : Z := 128.
Definition valid := valid_binary prec emax.

(** The C conversion [(float)x] of a double: round to nearest, ties to
    even; values beyond the binary32 range become infinities. *)
Definition of_f64 (x : spec_float) : spec_float :=
  match x with
  | S754_finite s m e => binary_round prec emax s m e
  | _ => x
  end.

(** Widening a binary32 value to binary64 (always exact). *)
Definition to_f64 (x : spec_float) : spec_float :=
  match x with
  | S754_finite s m e => binary_round F64.prec F64.emax s m e
  | _ => x
  end.

Definition sign_bit (s : bool) : Z := if s then 2 ^ 31 else 0.

(** IEEE-754 binary32 interchange encoding.  [spec_float] carries neither
    sign nor payload for NaN; the quiet NaN [0x7fc00000] stands for it. *)
Definition bits (x : spec_float) : Z :=
  match x with
  | S754_zero s => sign_bit s
  | S754_infinity s => sign_bit s + 255 * 2 ^ 23
  | S754_nan => 255 * 2 ^ 23 + 2 ^ 22
  | S754_finite s m e =>
      if Zpos m <? 2 ^ 23 then sign_bit s + Zpos m
      else sign_bit s + (e + 150) * 2 ^ 23 + (Zpos m - 2 ^ 23)
  end.

Definition of_bits (w : Z) : spec_float :=
  let s := 2 ^ 31 <=? w in
  let be := (w / 2 ^ 23) mod 256 in
  let f := w mod 2 ^ 23 in
  if be =? 0 then
    match f with Zpos m => S754_finite s m (-149) | _ => S754_zero s end
  else if be =? 255 then
    (if f =? 0 then S754_infinity s else S754_nan)
  else
    match f + 2 ^ 23 with
    | Zpos m => S754_finite s m (be - 150)
    | _ => S754_nan
    end.
End F32.

(** Zero or a canonical (mantissa, exponent) pair of the format. *)
Definition canon (prec emax : Z) (m e : Z) : Prop :=
  m = 0 \/ (0 < m /\ fexp prec emax (Zdigits2 m + e) = e).

(** Round-half-to-even of the quotient [a / b] for [b > 0]. *)
Definition rhe_div (a b : Z) : Z :=
  let q := a / b in
  let r := a mod b in
  match 2 * r ?= b with
  | Lt => q
  | Gt => q + 1
  | Eq => if Z.even q then q else q + 1
  end.

(** The nearest integer, ties to even, of the finite float [(-1)^s * m * 2^e]. *)
Definition rhe_finite (s : bool) (m : positive) (e : Z) : Z :=
  if 0 <=? e then smant s m * 2 ^ e
  else rhe_div (smant s m) (2 ^ (- e)).

(** Python's [round(x)] for a float [x] and no [ndigits]: an [int], ties to
    even; infinities raise [OverflowError] and NaN raises [ValueError]. *)
Definition py_round (x : spec_float) : result Z :=
  match x with
  | S754_nan => Raise ValueError
  | S754_infinity _ => Raise OverflowError
  | S754_zero _ => Ok 0
  | S754_finite s m e => Ok (rhe_finite s m e)
  end.

(** Python's float true division: a zero divisor raises. *)
Definition py_truediv (x y : spec_float) : result spec_float :=
  if is_zero y then Raise ZeroDivisionError else Ok (F64.div x y).

(** Python's [seq[i]] on a sequence: out of range raises [IndexError]. *)
Definition py_index {A} (l : list A) (i : nat) : result A :=
  match l !! i with
  | Some x => Ok x
  | None => Raise IndexError
  end.

(** A Python int that is the operand of a float operation (the [SCALE] of
    [tl * SCALE]) is converted to a double, correctly rounded; an int beyond
    the binary64 range raises [OverflowError] ("int too large to convert to
    float"). *)
Definition float_of_int (k : Z) : result spec_float :=
  if is_inf (F64.of_Z k) then Raise OverflowError else Ok (F64.of_Z k).

(* ===================================================================== *)
(** ** Grid geometry (lines 21-24) *)
(* ===================================================================== *)

(** [numpy.linspace(start, stop, num)] with the default [endpoint=True] and
    scalar float bounds, following NumPy's [function_base.py]:
    a negative [num] raises [ValueError]; [y = arange(0, num)] is scaled by
    [step = (stop - start) / (num - 1)] (or, when that step is zero, divided
    by [num - 1] and multiplied by [stop - start]), [start] is added, and
    when [num > 1] the last element is overwritten with [stop].  With a single
    sample the array is [0.0 * (stop - start) + start].

    Memory is not part of the model: NumPy refuses a [num] beyond its
    array-size limit ([ValueError], "Maximum allowed size exceeded") and an
    allocation can fail ([MemoryError]), where this function returns a list.
    What is proved of a sequence is therefore proved of a call that returns,
    or of the shipped axes. *)
Definition linspace_step (start stop : spec_float) (num : Z) : spec_float :=
  F64.div (F64.sub stop start) (F64.of_Z (num - 1)).

Definition linspace_elem (start stop : spec_float) (num : Z) (k : nat) : spec_float :=
  let div := num - 1 in
  let delta := F64.sub stop start in
  let y := F64.of_Z (Z.of_nat k) in
  let step := linspace_step start stop num in
  if 0 <? div then
    if SFeqb step (F64.of_Z 0)
    then F64.add (F64.mul (F64.div y (F64.of_Z div)) delta) start
    else F64.add (F64.mul y step) start
  else F64.add (F64.mul y delta) start.

Definition linspace (start stop : spec_float) (num : Z) : result (list spec_float) :=
  if num <? 0 then Raise ValueError
  else
    let y := linspace_elem start stop num <$> seq 0 (Z.to_nat num) in
    Ok (if 1 <? num then <[Z.to_nat (num - 1) := stop]> y else y).

(** [n = int(round((vmax - vmin) / dv))]. *)
Definition cell_count (vmin vmax dv : spec_float) : result Z :=
  q ← py_truediv (F64.sub vmax vmin) dv;
  py_round q.

(** [dv/2.0]: the divisor is a non-zero literal. *)
Definition half (dv : spec_float) : spec_float := F64.div dv (F64.of_Z 2).

Definition centers (vmin vmax dv : spec_float) : result (list spec_float * Z) :=
  n ← cell_count vmin vmax dv;
  xs ← linspace (F64.add vmin (half dv)) (F64.sub vmax (half dv)) n;
  mret (xs, n).

(* ===================================================================== *)
(** ** Configuration (lines 11-19) *)
(* ===================================================================== *)

Record config : Type := Config {
  lat_min : spec_float;
  lat_max : spec_float;
  cfg_dlat : spec_float;
  lon_min : spec_float;
  lon_max : spec_float;
  cfg_dlon : spec_float;
  cfg_scale : Z;
  outfile : string
}.

Definition LAT_MIN := F64.of_Z (-65).
Definition LAT_MAX := F64.of_Z 65.
Definition DLAT := F64.of_Z 1.
Definition LON_MIN := F64.of_Z (-180).
Definition LON_MAX := F64.of_Z 180.
Definition DLON := F64.of_Z 1.
Definition SCALE : Z := 20.
Definition OUTFILE : string := "./dist/tl_1deg_uint8.bin".

Definition CONFIG : config :=
  Config LAT_MIN LAT_MAX DLAT LON_MIN LON_MAX DLON SCALE OUTFILE.

(* ===================================================================== *)
(** ** Climatology sampler (lines 26-33) *)
(* ===================================================================== *)

(** The two call conventions of [pvlib.clearsky.lookup_linke_turbidity]. *)
Inductive call_shape : Type :=
  | Keyword      (* lookup_linke_turbidity(times, latitude=.., longitude=..) *)
  | Positional.  (* lookup_linke_turbidity(times, lat, lon) *)

#[global] Instance call_shape_eq_dec : EqDecision call_shape.
Proof. solve_decision. Defined.

(** One call of the provider: its shape and its three arguments.  [times]
    is the month sequence, kept as the list of its month numbers. *)
Record call : Type := Call {
  shape : call_shape;
  times : list Z;
  latitude : spec_float;
  longitude : spec_float
}.

(** [pd.date_range("2000-01-01", periods=12, freq="MS", tz="UTC")]. *)
Definition months : list Z := Z.of_nat <$> seq 1 12.

Section Provider.
(** The provider is a black box: it has a state of its own (its data file,
    caches, ...) and answers a call with a 12-month series or an
    exception. *)
Context {W : Type}.
Variable lookup_linke_turbidity : call -> W -> result (list spec_float) * W.

(** State threaded through the script: the provider's state and the log
    of the calls made to it, most recent first. *)
Record env : Type := Env { world : W; calls : list call }.

Definition M (A : Type) : Type := env -> result A * env.

#[local] Instance M_ret : MRet M := fun A a s => (Ok a, s).
#[local] Instance M_bind : MBind M := fun A B k m s =>
  match m s with
  | (Ok a, s') => k a s'
  | (Raise e, s') => (Raise e, s')
  end.

Definition lift {A} (r : result A) : M A := fun s => (r, s).

Definition invoke (c : call) : M (list spec_float) := fun s =>
  let '(r, w) := lookup_linke_turbidity c (world s) in
  (r, Env w (c :: calls s)).

(** [try: return f(months, latitude=.., longitude=..)
     except TypeError: return f(months, float(lat), float(lon))]. *)
Definition lt_lookup (ms : list Z) (lat lon : spec_float) : M (list spec_float) :=
  fun s =>
    match invoke (Call Keyword ms lat lon) s with
    | (Raise (TypeError _), s') => invoke (Call Positional ms lat lon) s'
    | other => other
    end.
End Provider.

(* ===================================================================== *)
(** ** Quantizer (line 47) *)
(* ===================================================================== *)

(** [np.clip] on a float: NaN is propagated, otherwise
    [min(max(x, lo), hi)] with C comparisons. *)
Definition np_clip (x lo hi : spec_float) : spec_float :=
  if is_nan x then x
  else
    let y := if SFltb lo x then x else lo in
    if SFltb y hi then y else hi.

(** The float holding a small integer with a given sign. *)
Definition integral (s : bool) (k : Z) : spec_float :=
  binary_normalize F64.prec F64.emax k 0 s.

(** [np.rint]: nearest integral float, ties to even, sign kept. *)
Definition np_rint (x : spec_float) : spec_float :=
  match x with
  | S754_finite s m e => if 0 <=? e then x else integral s (rhe_finite s m e)
  | _ => x
  end.

(** Truncation toward zero of a finite float. *)
Definition trunc (x : spec_float) : Z :=
  match x with
  | S754_finite s m e =>
      if 0 <=? e then smant s m * 2 ^ e else Z.quot (smant s m) (2 ^ (- e))
  | _ => 0
  end.

Section Platform.
(** [astype(np.uint8)] is a C conversion of a double to an 8-bit unsigned
    integer.  C defines it when the truncated value fits the target type;
    NaN, infinities and values out of range give whatever byte the
    platform produces, [cast_undefined x]. *)
Variable cast_undefined : spec_float -> Z.

Definition astype_uint8 (x : spec_float) : Z :=
  if is_finite x && (0 <=? trunc x) && (trunc x <=? 255) then trunc x
  else cast_undefined x mod 256.

(** One value of [np.rint(np.clip(tl * SCALE, 0, 255)).astype(np.uint8)],
    for a [SCALE] that converts to a double; [sample_cell] raises the
    [OverflowError] of [float_of_int] before it quantizes with any other. *)
Definition quantize (scale : Z) (tl : spec_float) : Z :=
  astype_uint8
    (np_rint (np_clip (F64.mul tl (F64.of_Z scale)) (F64.of_Z 0) (F64.of_Z 255))).
End Platform.

(* ===================================================================== *)
(** ** Three-dimensional byte volumes *)
(* ===================================================================== *)

(** A [uint8] array of shape [(months, nlat, nlon)], outermost axis first. *)
Abbreviation volume := (list (list (list Z))).

(** [np.zeros((a, b, c), dtype=np.uint8)]; as for [linspace], an allocation
    that fails is not part of the model. *)
Definition zeros (a b c : nat) : volume := replicate a (replicate b (replicate c 0)).

Definition vget (arr : volume) (m i j : nat) : option Z :=
  row ← arr !! m ≫= (.!! i); row !! j.

Definition has_shape (a b c : nat) (arr : volume) : Prop :=
  length arr = a /\
  Forall (fun plane => length plane = b /\ Forall (fun row => length row = c) plane) arr.

Definition all_bytes (arr : volume) : Prop :=
  Forall (Forall (Forall (fun v => 0 <= v < 256))) arr.

(** [plane[i][j] = x]. *)
Definition set_cell (plane : list (list Z)) (i j : nat) (x : Z) : list (list Z) :=
  alter (<[j := x]>) i plane.

(** [arr[m, i, j] = v[m]] for every plane [m]. *)
Definition put_column (arr : volume) (i j : nat) (v : list Z) : volume :=
  imap (fun m plane => set_cell plane i j (default 0 (v !! m))) arr.

(** [out[:, i, j] = v] on an array of shape [(_, b, c)]: [v] must have as
    many elements as the array has planes, or one element that is broadcast;
    other lengths raise [ValueError], and an index out of range raises
    [IndexError]. *)
Definition assign_column (arr : volume) (b c : nat) (i j : nat) (v : list Z)
  : result volume :=
  if negb ((i <? b)%nat && (j <? c)%nat) then Raise IndexError
  else if (length v =? length arr)%nat then Ok (put_column arr i j v)
  else match v with
       | [x] => Ok ((fun plane => set_cell plane i j x) <$> arr)
       | _ => Raise ValueError
       end.

(** [arr.tobytes(order="C")]: row-major flattening. *)
Definition tobytes (arr : volume) : list Z := mjoin (mjoin arr).

(* ===================================================================== *)
(** ** Grid assembler (lines 35-56) *)
(* ===================================================================== *)

Record meta : Type := Meta {
  nlat : Z;
  nlon : Z;
  lat0 : spec_float;
  lon0 : spec_float;
  dlat : spec_float;
  dlon : spec_float;
  scale : Z
}.

Section Assembler.
Context {W : Type}.
Variable lookup_linke_turbidity : call -> W -> result (list spec_float) * W.
Variable cast_undefined : spec_float -> Z.

#[local] Existing Instances M_ret M_bind.

(** [for i, x in enumerate(xs): acc = body(i, x, acc)], starting at index [i0]. *)
Fixpoint for_enumerate {A St} (body : nat -> A -> St -> M (W:=W) St)
    (i0 : nat) (xs : list A) (acc : St) : M (W:=W) St :=
  match xs with
  | [] => mret acc
  | x :: rest => acc' ← body i0 x acc; for_enumerate body (S i0) rest acc'
  end.

(** Lines 46-48, for one cell: the lookup, the product [tl * SCALE] (whose
    int operand must convert to a double), the quantization and the
    assignment of the column. *)
Definition sample_cell (cfg : config) (b c : nat) (i j : nat) (lat lon : spec_float)
    (out : volume) : M (W:=W) volume :=
  tl ← lt_lookup lookup_linke_turbidity months lat lon;
  _ ← lift (float_of_int (cfg_scale cfg));
  lift (assign_column out b c i j (quantize cast_undefined (cfg_scale cfg) <$> tl)).

(** Lines 43-48: the two loops, on an array of shape [(_, b, c)]. *)
Definition fill_grid (cfg : config) (b c : nat) (lats lons : list spec_float)
    (out : volume) : M (W:=W) volume :=
  for_enumerate (fun i lat =>
     for_enumerate (fun j lon => sample_cell cfg b c i j lat lon) 0 lons)
    0 lats out.

Definition build_grid_with (cfg : config) : M (W:=W) (volume * meta) :=
  '(lats, nlat) ← lift (centers (lat_min cfg) (lat_max cfg) (cfg_dlat cfg));
  '(lons, nlon) ← lift (centers (lon_min cfg) (lon_max cfg) (cfg_dlon cfg));
  let b := Z.to_nat nlat in
  let c := Z.to_nat nlon in
  out ← fill_grid cfg b c lats lons (zeros 12 b c);
  lat0 ← lift (py_index lats 0);
  lon0 ← lift (py_index lons 0);
  mret (out, Meta nlat nlon lat0 lon0 (cfg_dlat cfg) (cfg_dlon cfg) (cfg_scale cfg)).

Definition build_grid : M (W:=W) (volume * meta) := build_grid_with CONFIG.
End Assembler.

(* ===================================================================== *)
(** ** The call log of a run *)
(* ===================================================================== *)

(** Every lookup of [lt_lookup] starts with a keyword call, so the keyword
    calls of the log tell which cells were sampled, and in which order. *)
Definition is_keyword (c : call) : Prop := shape c = Keyword.

#[global] Instance is_keyword_dec c : Decision (is_keyword c).
Proof. unfold is_keyword. apply _. Defined.

Definition keyword_calls (log : list call) : list call := filter is_keyword log.

(** The keyword calls of one latitude row, and of a whole grid in the order
    of the two loops of lines 43-44: latitude-major, longitude-minor. *)
Definition row_calls (lat : spec_float) (lons : list spec_float) : list call :=
  Call Keyword months lat <$> lons.

Definition cell_calls (lats lons : list spec_float) : list call :=
  lat ← lats; row_calls lat lons.

(* ===================================================================== *)
(** ** Binary encoder (lines 58-79) *)
(* ===================================================================== *)

(** The [n] low-order bytes of [w], least significant first. *)
Fixpoint le_bytes (n : nat) (w : Z) : list Z :=
  match n with
  | O => []
  | S n' => w mod 256 :: le_bytes n' (w / 256)
  end.

Fixpoint le_value (bs : list Z) : Z :=
  match bs with
  | [] => 0
  | b :: rest => b + 256 * le_value rest
  end.

(** [struct.pack("<H", x)], [struct.pack("<B", x)]: a value outside the
    unsigned range of the field raises [struct.error]. *)
Definition pack_H (x : Z) : result (list Z) :=
  if (0 <=? x) && (x <=? 65535) then Ok (le_bytes 2 x) else Raise StructError.

Definition pack_B (x : Z) : result (list Z) :=
  if (0 <=? x) && (x <=? 255) then Ok (le_bytes 1 x) else Raise StructError.

(** A finite double whose conversion to binary32 is infinite. *)
Definition f32_overflows (x : spec_float) : bool :=
  is_inf (F32.of_f64 x) && negb (is_inf x).

(** [struct.pack("<f", x)]: the double is converted to binary32; a finite
    value too large for the format raises [OverflowError]. *)
Definition pack_f (x : spec_float) : result (list Z) :=
  if f32_overflows x then Raise OverflowError
  else Ok (le_bytes 4 (F32.bits (F32.of_f64 x))).

Definition pack_ffff (a b c d : spec_float) : result (list Z) :=
  ba ← pack_f a; bb ← pack_f b; bc ← pack_f c; bd ← pack_f d;
  mret (ba ++ bb ++ bc ++ bd).

(** [b"TLB2"]. *)
Definition magic : list Z := [84; 76; 66; 50].

(** The 28-byte header, built field by field as lines 68-75 do. *)
Definition header (mt : meta) : result (list Z) :=
  version ← pack_H 2;
  bnlat ← pack_H (nlat mt);
  bnlon ← pack_H (nlon mt);
  bscale ← pack_B (scale mt);
  reserved ← pack_B 0;
  floats ← pack_ffff (lat0 mt) (lon0 mt) (dlat mt) (dlon mt);
  mret (magic ++ version ++ bnlat ++ bnlon ++ bscale ++ reserved ++ floats).

(** The operating system, as far as the script meets it: whether a path can
    be opened for writing (its directory exists, the permissions allow it,
    ...), whether a write to the opened file succeeds (the disk is not full,
    ...), and what a write that fails leaves in the file. *)
Record os : Type := OS {
  can_open : string -> bool;
  can_write : string -> list Z -> bool;
  torn : string -> list Z -> list Z
}.

(** An operating system that reports no failure. *)
Definition sound : os := OS (fun _ => true) (fun _ _ => true) (fun _ _ => []).

(** No failure of the operating system on this path. *)
Definition writable (sys : os) (path : string) : Prop :=
  can_open sys path = true /\ forall data, can_write sys path data = true.

(** Files by path.  [open(path, "wb")] creates or truncates the file, or
    raises [OSError] ([FileNotFoundError] for a missing directory) and
    leaves every file as it was.  [f.write] appends to the opened file, or
    raises [OSError] and leaves in it what the operating system says. *)
Definition fs_open_wb (sys : os) (path : string) (fs : gmap string (list Z))
  : result unit * gmap string (list Z) :=
  if can_open sys path then (Ok (), <[path := []]> fs) else (Raise OSError, fs).

Definition fs_write (sys : os) (path : string) (data : list Z)
    (fs : gmap string (list Z)) : result unit * gmap string (list Z) :=
  if can_write sys path data then (Ok (), alter (fun old => old ++ data) path fs)
  else (Raise OSError, <[path := torn sys path data]> fs).

Definition write_bin (sys : os) (path : string) (arr : volume) (mt : meta)
    (fs : gmap string (list Z)) : result unit * gmap string (list Z) :=
  match header mt with
  | Raise e => (Raise e, fs)
  | Ok h =>
      match fs_open_wb sys path fs with
      | (Raise e, fs1) => (Raise e, fs1)
      | (Ok _, fs1) =>
          match fs_write sys path h fs1 with
          | (Raise e, fs2) => (Raise e, fs2)
          | (Ok _, fs2) => fs_write sys path (tobytes arr) fs2
          end
      end
  end.

(** Lines 81-83: assemble, then encode. *)
Definition main {W : Type} (provider : call -> W -> result (list spec_float) * W)
    (cast_undefined : spec_float -> Z) (sys : os)
    (s : env (W:=W)) (fs : gmap string (list Z))
  : result unit * env (W:=W) * gmap string (list Z) :=
  match build_grid provider cast_undefined s with
  | (Ok (grid, mt), s') =>
      let '(r, fs') := write_bin sys OUTFILE grid mt fs in (r, s', fs')
  | (Raise e, s') => (Raise e, s', fs)
  end.

(* ===================================================================== *)
(** ** A reader of the file format *)
(* ===================================================================== *)

(** The repository ships no reader; this one follows the table of section 6
    of the specification, field by field: magic, version, nlat, nlon, scale,
    reserved, four binary32 values, then [12 * nlat * nlon] payload bytes in
    month-major order. *)
Definition slice (off n : nat) (bs : list Z) : list Z := take n (drop off bs).

Definition read_f32 (off : nat) (bs : list Z) : spec_float :=
  F32.to_f64 (F32.of_bits (le_value (slice off 4 bs))).

Definition reshape3 (a b c : nat) (payload : list Z) : volume :=
  reshape (replicate b c) <$> reshape (replicate a (b * c)%nat) payload.

Definition decode (bs : list Z) : option (meta * volume) :=
  let n_lat := le_value (slice 6 2 bs) in
  let n_lon := le_value (slice 8 2 bs) in
  let payload := drop 28 bs in
  if decide (slice 0 4 bs = magic /\ le_value (slice 4 2 bs) = 2 /\
             slice 11 1 bs = [0] /\
             Z.of_nat (length payload) = 12 * n_lat * n_lon)
  then Some (Meta n_lat n_lon (read_f32 12 bs) (read_f32 16 bs) (read_f32 20 bs)
               (read_f32 24 bs) (le_value (slice 10 1 bs)),
             reshape3 12 (Z.to_nat n_lat) (Z.to_nat n_lon) payload)
  else None.

(** The value a binary32 field gives back: the double rounded to binary32. *)
Definition round_f32 (x : spec_float) : spec_float := F32.to_f64 (F32.of_f64 x).

Definition meta_f32 (mt : meta) : meta :=
  Meta (nlat mt) (nlon mt) (round_f32 (lat0 mt)) (round_f32 (lon0 mt))
       (round_f32 (dlat mt)) (round_f32 (dlon mt)) (scale mt).

(** The bytes [write_bin] leaves in the file, if it succeeds (on an
    operating system that reports no failure). *)
Definition written (arr : volume) (mt : meta) : option (list Z) :=
  let '(r, fs) := write_bin sound OUTFILE arr mt ∅ in
  if is_ok r then fs !! OUTFILE else None.

(* ===================================================================== *)
(** ** Statements of the specification, as it words them *)
(* ===================================================================== *)

(** The rational value of a finite float (zero otherwise). *)
Definition SF2Q (x : spec_float) : Q :=
  match x with
  | S754_finite s m e =>
      if 0 <=? e then inject_Z (smant s m * 2 ^ e)
      else Qmake (smant s m) (Z.to_pos (2 ^ (- e)))
  | _ => 0%Q
  end.

(** Round-half-to-even on the rationals. *)
Definition round_half_even (q : Q) : Z :=
  let f := Qfloor q in
  match Qcompare (q - inject_Z f) (1 # 2) with
  | Lt => f
  | Gt => f + 1
  | Eq => if Z.even f then f else f + 1
  end.

(** [clip(q, lo, hi)] on the rationals. *)
Definition Qclip (lo hi q : Q) : Q :=
  if Qle_bool q lo then lo else if Qle_bool hi q then hi else q.

(** [clip(x, 0, 255)] of a scaled value that is finite or infinite. *)
Definition clip_0_255 (x : spec_float) : Q :=
  match x with
  | S754_infinity false => 255%Q
  | S754_infinity true => 0%Q
  | _ => Qclip 0 255 (SF2Q x)
  end.

(** Section 4.3: [round(clip(value * scale, 0, 255))], the product being the
    scaled float. *)
Definition quantize_spec (scale : Z) (v : spec_float) : Z :=
  round_half_even (clip_0_255 (F64.mul v (F64.of_Z scale))).

(** Consecutive elements of a sequence, related pairwise. *)
Definition consecutive (R : spec_float -> spec_float -> Prop) (xs : list spec_float) : Prop :=
  forall k x y, xs !! k = Some x -> xs !! S k = Some y -> R x y.

(** Section 8, first property: on a valid axis [centers] returns
    [round((max - min) / step)] values, strictly increasing, each separated
    by [step], the first being [min + step/2]. *)
Definition spec_centers_regular (vmin vmax dv : spec_float) : Prop :=
  SFltb vmin vmax = true -> SFltb (F64.of_Z 0) dv = true ->
  exists xs n,
    centers vmin vmax dv = Ok (xs, n) /\
    cell_count vmin vmax dv = Ok n /\
    Z.of_nat (length xs) = n /\
    consecutive (fun x y => SFltb x y = true) xs /\
    consecutive (fun x y => SFeqb (F64.sub y x) dv = true) xs /\
    (forall x0, head xs = Some x0 -> SFeqb x0 (F64.add vmin (half dv)) = true).

(** Section 4.1: [centers] fails when the count is not positive. *)
Definition spec_centers_rejects (vmin vmax dv : spec_float) : Prop :=
  forall n, cell_count vmin vmax dv = Ok n -> n <= 0 ->
    exists e, centers vmin vmax dv = Raise e.

(** The last centre is [max - step/2] whenever there is at least one cell. *)
Definition spec_centers_last (vmin vmax dv : spec_float) : Prop :=
  forall n, cell_count vmin vmax dv = Ok n -> 1 <= n ->
    exists xs x, centers vmin vmax dv = Ok (xs, n) /\ last xs = Some x /\
                 SFeqb x (F64.sub vmax (half dv)) = true.

(** Metadata within the widths of its integer fields. *)
Definition within_widths (mt : meta) : Prop :=
  0 <= nlat mt <= 65535 /\ 0 <= nlon mt <= 65535 /\ 0 <= scale mt <= 255.

(** No [float32] field overflows. *)
Definition floats_fit (mt : meta) : Prop :=
  f32_overflows (lat0 mt) = false /\ f32_overflows (lon0 mt) = false /\
  f32_overflows (dlat mt) = false /\ f32_overflows (dlon mt) = false.

#[global] Instance within_widths_dec mt : Decision (within_widths mt).
Proof. unfold within_widths. apply _. Defined.

#[global] Instance floats_fit_dec mt : Decision (floats_fit mt).
Proof. unfold floats_fit. apply _. Defined.

(** Every [float32] field holds a binary32 value already. *)
Definition floats_exact (mt : meta) : Prop :=
  round_f32 (lat0 mt) = lat0 mt /\ round_f32 (lon0 mt) = lon0 mt /\
  round_f32 (dlat mt) = dlat mt /\ round_f32 (dlon mt) = dlon mt.

(** Section 8, round trip: decoding what the encoder wrote gives back the
    metadata and the volume. *)
Definition spec_roundtrip (mt : meta) (arr : volume) : Prop :=
  within_widths mt ->
  has_shape 12 (Z.to_nat (nlat mt)) (Z.to_nat (nlon mt)) arr ->
  all_bytes arr ->
  written arr mt ≫= decode = Some (mt, arr).


(** Section 4.2: the keyword form first; the positional form if, and only
    if, the keyword call failed with a signature mismatch; every other
    outcome is passed on unchanged. *)
Definition spec_sampler_fallback {W : Type}
    (provider : call -> W -> result (list spec_float) * W)
    (ms : list Z) (lat lon : spec_float) (s : env (W:=W)) : Prop :=
  let kw := Call Keyword ms lat lon in
  let pos := Call Positional ms lat lon in
  let first := provider kw (world s) in
  let second := provider pos first.2 in
  (first.1 = Raise (TypeError SignatureMismatch) ->
     lt_lookup provider ms lat lon s
       = (second.1, Env second.2 (pos :: kw :: calls s))) /\
  (first.1 <> Raise (TypeError SignatureMismatch) ->
     lt_lookup provider ms lat lon s
       = (first.1, Env first.2 (kw :: calls s))).

(** Section 4.3: a non-finite turbidity value makes the cell fail instead of
    being stored. *)
Definition spec_rejects_nonfinite {W : Type}
    (provider : call -> W -> result (list spec_float) * W)
    (cast_undefined : spec_float -> Z) (cfg : config) (b c i j : nat)
    (lat lon : spec_float) (out : volume) (s : env (W:=W)) : Prop :=
  forall tl s1,
    lt_lookup provider months lat lon s = (Ok tl, s1) ->
    Exists (fun v => is_finite v = false) tl ->
    exists e, (sample_cell provider cast_undefined cfg b c i j lat lon out s).1 = Raise e.

(* ===================================================================== *)
(** ** Sample providers and inputs *)
(* ===================================================================== *)

(** A provider of the older kind: it rejects keyword arguments with
    [TypeError] and answers positional calls with the latitude, twelve
    times. *)
Definition legacy_provider (c : call) (w : unit) : result (list spec_float) * unit :=
  match shape c with
  | Keyword => (Raise (TypeError SignatureMismatch), w)
  | Positional => (Ok (replicate 12 (latitude c)), w)
  end.

(** A provider that accepts both call shapes, but whose keyword path raises
    a [TypeError] of its own from inside its body. *)
Definition faulty_provider (c : call) (w : unit) : result (list spec_float) * unit :=
  match shape c with
  | Keyword => (Raise (TypeError OtherTypeError), w)
  | Positional => (Ok (replicate 12 (latitude c)), w)
  end.

(** A provider that answers every call with the same value for each month. *)
Definition flat_provider (v : spec_float) (c : call) (w : unit)
  : result (list spec_float) * unit :=
  (Ok (replicate 12 v), w).

(** A platform whose undefined conversions give 0. *)
Definition cast_zero (x : spec_float) : Z := 0.

(** A grid of one latitude and two longitudes, with its metadata. *)
Definition sample_meta : meta :=
  Meta 1 2 (F64.of_decimal (-645) 1) (F64.of_decimal (-1795) 1)
       (F64.of_Z 1) (F64.of_Z 1) 20.

Definition sample_volume : volume :=
  (fun m => [[m; m + 100]]) <$> (Z.of_nat <$> seq 0 12).

(** Metadata of a one-cell grid with a step of 0.1 degree. *)
Definition tenth_meta : meta :=
  Meta 1 1 (F64.of_Z 0) (F64.of_Z 0) (F64.of_decimal 1 1) (F64.of_decimal 1 1) 20.



Definition pinf : spec_float := S754_infinity false.
Definition ninf : spec_float := S754_infinity true.

(** A configuration of two latitudes (0.5, 1.5) and three longitudes
    (0.5, 1.5, 2.5). *)
Definition small_config : config :=
  Config (F64.of_Z 0) (F64.of_Z 2) (F64.of_Z 1)
         (F64.of_Z 0) (F64.of_Z 3) (F64.of_Z 1) 20 "small.bin".

(** A provider with no data at one coordinate pair: it raises there, and
    answers the latitude twelve times elsewhere. *)
Definition gap_answer (lat_gap lon_gap : spec_float) (lat lon : spec_float)
  : result (list spec_float) :=
  if SFeqb lat lat_gap && SFeqb lon lon_gap then Raise (OtherError "KeyError")
  else Ok (replicate 12 lat).

Definition gap_provider (lat_gap lon_gap : spec_float) (c : call) (w : unit)
  : result (list spec_float) * unit :=
  (gap_answer lat_gap lon_gap (latitude c) (longitude c), w).

(** A provider that answers with a series of [n] equal values. *)
Definition short_provider (n : nat) (v : spec_float) (c : call) (w : unit)
  : result (list spec_float) * unit :=
  (Ok (replicate n v), w).

(* ===================================================================== *)
(** * Properties *)
(* ===================================================================== *)

(** ** Rounding to a binary format yields well-formed floats *)

Lemma digits2_pos_log2 (p : positive) :
  Zpos (digits2_pos p) = Z.log2 (Zpos p) + 1.
Proof.
  induction p as [p IH|p IH|]; cbn [digits2_pos]; try reflexivity.
  - rewrite Pos2Z.inj_succ, IH.
    change (Zpos p~1) with (2 * Zpos p + 1).
    rewrite Z.log2_succ_double by lia. lia.
  - rewrite Pos2Z.inj_succ, IH.
    change (Zpos p~0) with (2 * Zpos p).
    rewrite Z.log2_double by lia. lia.
Qed.

Lemma Zdigits2_pos (m : Z) : 0 < m -> Zdigits2 m = Z.log2 m + 1.
Proof. destruct m; try lia. intros _. apply digits2_pos_log2. Qed.

Lemma shr_1_m (mrs : shr_record) :
  0 <= shr_m mrs -> shr_m (shr_1 mrs) = shr_m mrs / 2.
Proof.
  destruct mrs as [m r s]; cbn [shr_m]. intros Hm.
  rewrite <- Z.div2_div.
  destruct m as [|[p|p|]|p]; try lia; reflexivity.
Qed.

Lemma pow2_xI (q : positive) : 2 ^ Zpos q~1 = 2 * 2 ^ Zpos q * 2 ^ Zpos q.
Proof.
  change (Zpos q~1) with (2 * Zpos q + 1).
  replace (2 * Zpos q + 1) with (1 + Zpos q + Zpos q) by lia.
  do 2 rewrite Z.pow_add_r by lia. reflexivity.
Qed.

Lemma pow2_xO (q : positive) : 2 ^ Zpos q~0 = 2 ^ Zpos q * 2 ^ Zpos q.
Proof.
  change (Zpos q~0) with (2 * Zpos q).
  replace (2 * Zpos q) with (Zpos q + Zpos q) by lia.
  rewrite Z.pow_add_r by lia. reflexivity.
Qed.

Lemma iter_pos_shr_m (p : positive) : forall mrs,
  0 <= shr_m mrs ->
  shr_m (SpecFloat.iter_pos shr_1 p mrs) = shr_m mrs / 2 ^ Zpos p.
Proof.
  assert (Hnn : forall mrs, 0 <= shr_m mrs -> 0 <= shr_m (shr_1 mrs)).
  { intros mrs H. rewrite shr_1_m by assumption. apply Z.div_pos; lia. }
  assert (Hpow : forall q, 0 < 2 ^ Zpos q) by (intros; apply Z.pow_pos_nonneg; lia).
  induction p as [p IH|p IH|]; intros mrs Hm; cbn [SpecFloat.iter_pos].
  - pose proof (Hpow p) as Hp.
    rewrite IH, IH, shr_1_m; auto.
    + rewrite pow2_xI. rewrite (Z.div_div _ 2 (2 ^ Zpos p)) by lia.
      rewrite Z.div_div by lia. reflexivity.
    + rewrite IH by auto. apply Z.div_pos; auto.
  - pose proof (Hpow p) as Hp.
    rewrite IH, IH; auto.
    + rewrite pow2_xO, Z.div_div by lia. reflexivity.
    + rewrite IH by auto. apply Z.div_pos; auto.
  - rewrite shr_1_m by auto. reflexivity.
Qed.

Lemma shr_record_of_loc_m m l : shr_m (shr_record_of_loc m l) = m.
Proof. destruct l as [|[]]; reflexivity. Qed.

Lemma round_nearest_even_cases m l :
  round_nearest_even m l = m \/ round_nearest_even m l = m + 1.
Proof. destruct l as [|[]]; cbn; auto. destruct (Z.even m); auto. Qed.

Lemma digits2_pos_iter_xO (d m : positive) :
  Zpos (digits2_pos (Pos.iter xO m d)) = Zpos (digits2_pos m) + Zpos d.
Proof.
  induction d as [|d IH] using Pos.peano_ind.
  - cbn. lia.
  - rewrite Pos.iter_succ. cbn [digits2_pos]. lia.
Qed.

Section RoundingValid.
Variables prec emax : Z.
Hypothesis prec_pos : 0 < prec.
Hypothesis prec_lt_emax : prec < emax.

(** Mantissa and exponent after [shr_fexp]. *)
Lemma shr_fexp_spec m e l :
  0 <= m ->
  let n := fexp prec emax (Zdigits2 m + e) - e in
  shr_m (shr_fexp prec emax m e l).1 = (if 0 <? n then m / 2 ^ n else m) /\
  (shr_fexp prec emax m e l).2 = (if 0 <? n then e + n else e).
Proof using Type.
  intros Hm n. unfold shr_fexp, shr. fold n.
  destruct n as [|p|p]; cbn [fst snd]; rewrite ?shr_record_of_loc_m; auto.
  split; [|reflexivity].
  rewrite iter_pos_shr_m; rewrite shr_record_of_loc_m; auto.
Qed.

Lemma shr_fexp_canon m e l :
  0 <= m -> e <= fexp prec emax (Zdigits2 m + e) ->
  let r := shr_fexp prec emax m e l in
  0 <= shr_m r.1 /\ emin prec emax <= r.2 /\
  (shr_m r.1 = 0 -> r.2 = emin prec emax) /\
  canon prec emax (shr_m r.1) r.2.
Proof using prec_pos.
  intros Hm He r.
  destruct (shr_fexp_spec m e l Hm) as [H1 H2]. fold r in H1, H2.
  rewrite H1, H2. clear H1 H2 r.
  assert (Hmin : emin prec emax <= fexp prec emax (Zdigits2 m + e))
    by (unfold fexp; lia).
  destruct (Z.eq_dec m 0) as [->|Hm0].
  { rewrite Z.div_0_l by (apply Z.pow_nonzero; lia).
    unfold canon. cbn [Zdigits2] in *. unfold fexp in *.
    destruct (Z.ltb_spec 0 (Z.max (0 + e - prec) (emin prec emax) - e));
      repeat split; auto; lia. }
  assert (Hmp : 0 < m) by lia.
  rewrite (Zdigits2_pos m Hmp) in *.
  remember (fexp prec emax (Z.log2 m + 1 + e)) as fe eqn:Hfe.
  destruct (Z.ltb_spec 0 (fe - e)) as [Hn|Hn].
  - rewrite <- Z.shiftr_div_pow2 by lia.
    assert (Hd : 0 <= Z.shiftr m (fe - e)) by (apply Z.shiftr_nonneg; lia).
    split; [exact Hd|]. split; [lia|].
    split.
    + intros Hz. apply Z.shiftr_eq_0_iff in Hz. destruct Hz as [?|[_ Hz]]; [lia|].
      unfold fexp in Hfe. lia.
    + destruct (Z.eq_dec (Z.shiftr m (fe - e)) 0) as [Hz|Hz]; [left; exact Hz|right].
      assert (Hsp : 0 < Z.shiftr m (fe - e)) by lia.
      split; [exact Hsp|].
      rewrite (Zdigits2_pos _ Hsp), Z.log2_shiftr by lia.
      assert (Hlog : fe - e <= Z.log2 m).
      { destruct (Z.le_gt_cases (fe - e) (Z.log2 m)); [assumption|].
        exfalso. apply Hz. apply Z.shiftr_eq_0; lia. }
      replace (Z.max 0 (Z.log2 m - (fe - e)) + 1 + (e + (fe - e)))
        with (Z.log2 m + 1 + e) by lia.
      lia.
  - split; [lia|]. split; [lia|]. split; [lia|].
    right. split; [lia|]. rewrite (Zdigits2_pos m Hmp). lia.
Qed.

(** The result of rounding is a zero, an infinity or a bounded finite
    float, with the sign that was asked for. *)
Lemma binary_round_aux_shape sx m e l :
  0 <= m -> e <= fexp prec emax (Zdigits2 m + e) ->
  let r := binary_round_aux prec emax sx m e l in
  r = S754_zero sx \/ r = S754_infinity sx \/
  exists m' e', r = S754_finite sx m' e' /\ bounded prec emax m' e' = true.
Proof using prec_pos.
  intros Hm He. unfold binary_round_aux.
  pose proof (shr_fexp_canon m e l Hm He) as H1. cbv zeta in H1.
  destruct (shr_fexp prec emax m e l) as [mrs1 e1]. cbn [fst snd] in H1.
  destruct H1 as (Hm1 & Hmin1 & Hz1 & Hc1).
  set (m2 := round_nearest_even (shr_m mrs1) (loc_of_shr_record mrs1)).
  assert (Hm2 : 0 <= m2 /\ e1 <= fexp prec emax (Zdigits2 m2 + e1)).
  { destruct (round_nearest_even_cases (shr_m mrs1) (loc_of_shr_record mrs1)) as [E|E];
      fold m2 in E; rewrite E; (split; [lia|]).
    - destruct Hc1 as [Hc1|[Hp Hc1]]; [|lia].
      rewrite Hc1, (Hz1 Hc1). cbn [Zdigits2]. unfold fexp. lia.
    - destruct Hc1 as [Hc1|[Hp Hc1]].
      + rewrite (Hz1 Hc1). unfold fexp. lia.
      + rewrite Zdigits2_pos in * by lia.
        assert (Z.log2 (shr_m mrs1) <= Z.log2 (shr_m mrs1 + 1))
          by (apply Z.log2_le_mono; lia).
        unfold fexp in *. lia. }
  destruct Hm2 as [Hm2 He2].
  pose proof (shr_fexp_canon m2 e1 loc_Exact Hm2 He2) as H2. cbv zeta in H2.
  destruct (shr_fexp prec emax m2 e1 loc_Exact) as [mrs3 e3]. cbn [fst snd] in H2.
  destruct H2 as (Hm3 & Hmin3 & Hz3 & Hc3).
  destruct (shr_m mrs3) as [|p|p] eqn:E3; [auto| |lia].
  destruct (Z.leb_spec e3 (emax - prec)) as [Hle|Hle]; [|auto].
  right. right. exists p, e3. split; [reflexivity|].
  unfold bounded, canonical_mantissa.
  destruct Hc3 as [?|[_ Hc3]]; [lia|]. cbn [Zdigits2] in Hc3.
  rewrite Hc3, Z.eqb_refl. cbn [andb]. apply Z.leb_le. exact Hle.
Qed.

Theorem binary_round_aux_valid sx m e l :
  0 <= m -> e <= fexp prec emax (Zdigits2 m + e) ->
  valid_binary prec emax (binary_round_aux prec emax sx m e l) = true.
Proof using prec_pos.
  intros Hm He.
  destruct (binary_round_aux_shape sx m e l Hm He) as [->|[->|(m' & e' & -> & Hb)]];
    auto.
Qed.

Lemma binary_round_aux_not_nan sx m e l :
  0 <= m -> e <= fexp prec emax (Zdigits2 m + e) ->
  is_nan (binary_round_aux prec emax sx m e l) = false.
Proof using prec_pos.
  intros Hm He.
  destruct (binary_round_aux_shape sx m e l Hm He) as [->|[->|(m' & e' & -> & Hb)]];
    auto.
Qed.

Theorem binary_round_valid sx m e :
  valid_binary prec emax (binary_round prec emax sx m e) = true.
Proof using prec_pos.
  unfold binary_round, shl_align.
  destruct (fexp prec emax (Zpos (digits2_pos m) + e) - e) as [|d|d] eqn:Hd;
    apply binary_round_aux_valid; try lia; cbn [Zdigits2].
  - lia.
  - lia.
  - rewrite digits2_pos_iter_xO.
    replace (Zpos (digits2_pos m) + Zpos d + fexp prec emax (Zpos (digits2_pos m) + e))
      with (Zpos (digits2_pos m) + e
            + (Zpos d + fexp prec emax (Zpos (digits2_pos m) + e) - e)) by lia.
    replace (Zpos d + fexp prec emax (Zpos (digits2_pos m) + e) - e) with 0 by lia.
    rewrite Z.add_0_r. lia.
Qed.

Theorem binary_normalize_valid m e sz :
  valid_binary prec emax (binary_normalize prec emax m e sz) = true.
Proof using prec_pos.
  destruct m; cbn [binary_normalize]; auto using binary_round_valid.
Qed.

Lemma canonical_digits m e :
  canonical_mantissa prec emax m e = true ->
  fexp prec emax (Z.log2 (Zpos m) + 1 + e) = e.
Proof using Type.
  unfold canonical_mantissa. rewrite digits2_pos_log2. apply Z.eqb_eq.
Qed.

Lemma mul_align mx ex my ey :
  canonical_mantissa prec emax mx ex = true ->
  canonical_mantissa prec emax my ey = true ->
  ex + ey <= fexp prec emax (Zdigits2 (Zpos (mx * my)) + (ex + ey)).
Proof using prec_pos prec_lt_emax.
  intros Hx Hy. apply canonical_digits in Hx, Hy.
  rewrite Zdigits2_pos, Pos2Z.inj_mul by lia.
  pose proof (Z.log2_mul_below (Zpos mx) (Zpos my) ltac:(lia) ltac:(lia)).
  pose proof (Z.log2_nonneg (Zpos mx)). pose proof (Z.log2_nonneg (Zpos my)).
  unfold fexp, emin in *. lia.
Qed.

Theorem SFmul_valid x y :
  valid_binary prec emax x = true -> valid_binary prec emax y = true ->
  valid_binary prec emax (SFmul prec emax x y) = true.
Proof using prec_pos prec_lt_emax.
  destruct x as [sx|sx| |sx mx ex], y as [sy|sy| |sy my ey]; try reflexivity.
  cbn [valid_binary SFmul]. unfold bounded. intros Hx Hy.
  apply andb_true_iff in Hx, Hy. destruct Hx as [Hx _], Hy as [Hy _].
  apply binary_round_aux_valid; [lia|]. apply mul_align; assumption.
Qed.
Lemma SFmul_finite_not_nan x y :
  valid_binary prec emax x = true -> valid_binary prec emax y = true ->
  is_finite x = true -> is_finite y = true ->
  is_nan (SFmul prec emax x y) = false.
Proof using prec_pos prec_lt_emax.
  destruct x as [sx|sx| |sx mx ex], y as [sy|sy| |sy my ey];
    try reflexivity; try discriminate.
  cbn [valid_binary SFmul]. unfold bounded. intros Hx Hy _ _.
  apply andb_true_iff in Hx, Hy. destruct Hx as [Hx _], Hy as [Hy _].
  apply binary_round_aux_not_nan; [lia|]. apply mul_align; assumption.
Qed.
End RoundingValid.

(** ** Grid geometry *)

Lemma linspace_nonneg start stop n :
  0 <= n ->
  linspace start stop n =
    Ok (if 1 <? n
        then <[Z.to_nat (n - 1) := stop]> (linspace_elem start stop n <$> seq 0 (Z.to_nat n))
        else linspace_elem start stop n <$> seq 0 (Z.to_nat n)).
Proof.
  intros Hn. unfold linspace.
  destruct (Z.ltb_spec n 0); [lia|reflexivity].
Qed.

Lemma linspace_negative start stop n :
  n < 0 -> linspace start stop n = Raise ValueError.
Proof.
  intros Hn. unfold linspace. destruct (Z.ltb_spec n 0); [reflexivity|lia].
Qed.

Lemma linspace_length start stop n xs :
  linspace start stop n = Ok xs -> 0 <= n /\ length xs = Z.to_nat n.
Proof.
  unfold linspace. destruct (Z.ltb_spec n 0); [discriminate|].
  intros [= <-]. split; [assumption|].
  destruct (1 <? n); rewrite ?length_insert, length_fmap, length_seq; reflexivity.
Qed.

Lemma linspace_lookup start stop n xs (k : nat) :
  linspace start stop n = Ok xs ->
  (Z.of_nat k < n - 1 \/ (n = 1 /\ k = 0%nat)) ->
  xs !! k = Some (linspace_elem start stop n k).
Proof.
  unfold linspace. destruct (Z.ltb_spec n 0); [discriminate|].
  intros [= <-] Hk.
  assert (Hget : (linspace_elem start stop n <$> seq 0 (Z.to_nat n)) !! k
                 = Some (linspace_elem start stop n k)).
  { rewrite list_lookup_fmap, lookup_seq_lt by lia. reflexivity. }
  destruct (Z.ltb_spec 1 n); [|exact Hget].
  rewrite list_lookup_insert_ne by lia. exact Hget.
Qed.

Lemma linspace_last start stop n xs :
  linspace start stop n = Ok xs -> 2 <= n -> last xs = Some stop.
Proof.
  intros Hl Hn. destruct (linspace_length _ _ _ _ Hl) as [_ Hlen].
  revert Hl. unfold linspace. destruct (Z.ltb_spec n 0); [lia|].
  destruct (Z.ltb_spec 1 n); [|lia]. intros [= Hxs].
  rewrite last_lookup, Hlen, <- Hxs.
  replace (Nat.pred (Z.to_nat n)) with (Z.to_nat (n - 1)) by lia.
  apply list_lookup_insert_eq.
  rewrite length_fmap, length_seq. lia.
Qed.

Lemma centers_of_count vmin vmax dv n :
  cell_count vmin vmax dv = Ok n ->
  centers vmin vmax dv =
    (xs ← linspace (F64.add vmin (half dv)) (F64.sub vmax (half dv)) n; mret (xs, n)).
Proof. intros H. unfold centers. rewrite H. reflexivity. Qed.

Lemma centers_inv vmin vmax dv xs n :
  centers vmin vmax dv = Ok (xs, n) ->
  cell_count vmin vmax dv = Ok n /\
  linspace (F64.add vmin (half dv)) (F64.sub vmax (half dv)) n = Ok xs.
Proof.
  unfold centers. destruct (cell_count vmin vmax dv) as [n'|e]; [|discriminate].
  cbn. destruct (linspace _ _ n') as [xs'|e] eqn:El; [|discriminate].
  cbn. intros [= <- <-]. auto.
Qed.

(** C9.  The shipped axes: [centers(-65, 65, 1)] has 130 values, the first
    [-64.5] and the last [64.5]; [centers(-180, 180, 1)] has 360 values, the
    first [-179.5]. *)
Theorem centers_shipped_axes :
  (exists xs, centers LAT_MIN LAT_MAX DLAT = Ok (xs, 130) /\
              length xs = 130%nat /\
              head xs = Some (F64.of_decimal (-645) 1) /\
              last xs = Some (F64.of_decimal 645 1)) /\
  (exists xs, centers LON_MIN LON_MAX DLON = Ok (xs, 360) /\
              length xs = 360%nat /\
              head xs = Some (F64.of_decimal (-1795) 1)).
Proof.
  split.
  - destruct (centers LAT_MIN LAT_MAX DLAT) as [[xs n]|e] eqn:E;
      vm_compute in E; [|discriminate].
    injection E as <- <-. eexists. split; [reflexivity|].
    repeat split; vm_compute; reflexivity.
  - destruct (centers LON_MIN LON_MAX DLON) as [[xs n]|e] eqn:E;
      vm_compute in E; [|discriminate].
    injection E as <- <-. eexists. split; [reflexivity|].
    repeat split; vm_compute; reflexivity.
Qed.

(** C10, as the code has it: when [centers] returns two cells or more, the
    last centre is exactly [vmax - dv/2], because [linspace] stores its
    [stop] argument in the last slot. *)
Theorem centers_last_is_stop vmin vmax dv xs n :
  centers vmin vmax dv = Ok (xs, n) -> 2 <= n ->
  last xs = Some (F64.sub vmax (half dv)).
Proof.
  intros Hc Hn. destruct (centers_inv _ _ _ _ _ Hc) as [_ Hl].
  exact (linspace_last _ _ _ _ Hl Hn).
Qed.

Lemma centers_last_is_stop_witness :
  exists xs, centers LAT_MIN LAT_MAX DLAT = Ok (xs, 130) /\
             last xs = Some (F64.sub LAT_MAX (half DLAT)).
Proof.
  destruct (centers LAT_MIN LAT_MAX DLAT) as [[xs n]|e] eqn:E.
  - assert (Hn : n = 130) by (vm_compute in E; injection E as _ <-; reflexivity).
    subst n. exists xs. split; [reflexivity|].
    apply (centers_last_is_stop _ _ _ _ _ E). lia.
  - vm_compute in E. discriminate.
Defined.

(** C10 fails with a single cell: [centers(0, 1.25, 1)] is [[0.5]], while
    [max - step/2] is [0.75]. *)
Lemma centers_single_cell_last :
  ~ spec_centers_last (F64.of_Z 0) (F64.of_decimal 125 2) (F64.of_Z 1).
Proof.
  intros H. destruct (H 1) as (xs & x & Hc & Hl & He).
  - vm_compute. reflexivity.
  - lia.
  - vm_compute in Hc. injection Hc as <-.
    cbn in Hl. injection Hl as <-.
    vm_compute in He. discriminate.
Qed.

Lemma SFeqb_refl (x : spec_float) : is_nan x = false -> SFeqb x x = true.
Proof.
  destruct x as [[]|[]| |[] m e]; try reflexivity; try discriminate; intros _;
    unfold SFeqb, SFcompare; rewrite Z.compare_refl, Pos.compare_cont_refl;
    reflexivity.
Qed.

Lemma zero_times_finite (x : spec_float) :
  is_finite x = true -> is_zero (F64.mul (F64.of_Z 0) x) = true.
Proof. destruct x; try discriminate; reflexivity. Qed.

Lemma zero_plus (z x : spec_float) :
  is_zero z = true -> is_nan x = false -> SFeqb (F64.add z x) x = true.
Proof.
  destruct z as [sz| | |]; try discriminate. intros _ Hx.
  destruct x as [sx|sx| |sx m e]; try discriminate.
  - destruct sz, sx; reflexivity.
  - apply (SFeqb_refl (S754_infinity sx)). reflexivity.
  - apply (SFeqb_refl (S754_finite sx m e)). reflexivity.
Qed.

(** C3 fails as worded.  On the axis [(0, 2.5, 1)] the count is 2 and the
    centres are [0.5] and [2.0], one and a half steps apart; on the axis
    [(2^53, 2^53 + 4, 1)] two of the four centres coincide. *)
Lemma centers_not_regular :
  ~ spec_centers_regular (F64.of_Z 0) (F64.of_decimal 25 1) (F64.of_Z 1) /\
  ~ spec_centers_regular (F64.of_Z (2 ^ 53)) (F64.of_Z (2 ^ 53 + 4)) (F64.of_Z 1).
Proof.
  split; intros H.
  - destruct H as (xs & n & Hc & _ & _ & _ & Hsp & _); try (vm_compute; reflexivity).
    vm_compute in Hc. injection Hc as <- <-.
    specialize (Hsp 0%nat _ _ eq_refl eq_refl). vm_compute in Hsp. discriminate.
  - destruct H as (xs & n & Hc & _ & _ & Hinc & _ & _); try (vm_compute; reflexivity).
    vm_compute in Hc. injection Hc as <- <-.
    specialize (Hinc 1%nat _ _ eq_refl eq_refl). vm_compute in Hinc. discriminate.
Qed.

Lemma positive_not_zero (x : spec_float) :
  SFltb (F64.of_Z 0) x = true -> SFeqb x (F64.of_Z 0) = false.
Proof. destruct x as [[]|[]| |[] m e]; try discriminate; reflexivity. Qed.

(** A zero (or a NaN) times anything, plus [x]: NaN or a value equal to [x]. *)
Lemma zero_mul_add (y t x : spec_float) :
  is_zero y = true \/ is_nan y = true ->
  is_nan (F64.add (F64.mul y t) x) = false ->
  SFeqb (F64.add (F64.mul y t) x) x = true.
Proof.
  intros Hy Hn.
  assert (Hp : is_zero (F64.mul y t) = true \/ is_nan (F64.mul y t) = true).
  { destruct Hy as [Hy|Hy]; destruct y; try discriminate; destruct t; auto. }
  destruct Hp as [Hp|Hp].
  - apply zero_plus; [exact Hp|].
    destruct x; try reflexivity. destruct (F64.mul y t); discriminate.
  - destruct (F64.mul y t); discriminate.
Qed.

(** The first value of [linspace]: [start], unless it is NaN. *)
Lemma linspace_first start stop n xs :
  linspace start stop n = Ok xs -> 1 <= n ->
  exists x0, head xs = Some x0 /\
             (is_nan x0 = false -> SFeqb x0 start = true).
Proof.
  intros Hl Hn. exists (linspace_elem start stop n 0). split.
  - rewrite head_lookup. apply (linspace_lookup _ _ _ _ 0%nat Hl). cbn. lia.
  - unfold linspace_elem. change (F64.of_Z (Z.of_nat 0)) with (S754_zero false).
    destruct (0 <? n - 1); [destruct (SFeqb _ _)|]; apply zero_mul_add.
    + destruct (F64.of_Z (n - 1)); auto.
    + left. reflexivity.
    + left. reflexivity.
Qed.

(** A relation checked on every pair of neighbours. *)
Lemma consecutive_check (f : spec_float -> spec_float -> bool) xs :
  forallb (fun p => f p.1 p.2) (zip xs (tail xs)) = true ->
  consecutive (fun x y => f x y = true) xs.
Proof.
  induction xs as [|a rest IH]; intros H k x y Hx Hy; [discriminate|].
  destruct rest as [|b rest']; [destruct k; discriminate|].
  cbn [tail zip zip_with forallb fst snd] in H. apply andb_true_iff in H.
  destruct H as [Hab Hrest]. destruct k as [|k].
  - injection Hx as <-. injection Hy as <-. exact Hab.
  - exact (IH Hrest k x y Hx Hy).
Qed.

(** The original property holds on an axis where it can be computed. *)
Lemma centers_regular_check vmin vmax dv xs n :
  centers vmin vmax dv = Ok (xs, n) ->
  cell_count vmin vmax dv = Ok n ->
  Z.of_nat (length xs) = n ->
  forallb (fun p => SFltb p.1 p.2) (zip xs (tail xs)) = true ->
  forallb (fun p => SFeqb (F64.sub p.2 p.1) dv) (zip xs (tail xs)) = true ->
  match head xs with
  | Some x0 => SFeqb x0 (F64.add vmin (half dv)) = true
  | None => True
  end ->
  spec_centers_regular vmin vmax dv.
Proof.
  intros Hc Hn Hlen Hinc Hsp Hfirst _ _. exists xs, n.
  split; [exact Hc|]. split; [exact Hn|]. split; [exact Hlen|].
  split; [exact (consecutive_check SFltb xs Hinc)|].
  split; [exact (consecutive_check (fun x y => SFeqb (F64.sub y x) dv) xs Hsp)|].
  intros x0 Hx0. rewrite Hx0 in Hfirst. exact Hfirst.
Qed.

(** C3, as the code has it.  Whenever [centers] returns, it returns exactly
    [n = round((vmax - vmin) / dv)] values, and [n] is not negative; with
    one cell or more the first value equals [vmin + dv/2], unless it is NaN;
    with two cells or more the last value is [vmax - dv/2].  On the two
    shipped axes the property holds as the specification words it: the
    values are strictly increasing, neighbours are exactly [dv] apart and
    the first one is [vmin + dv/2]. *)
Theorem centers_count_and_spacing :
  (forall vmin vmax dv xs n,
     centers vmin vmax dv = Ok (xs, n) ->
     cell_count vmin vmax dv = Ok n /\ 0 <= n /\ Z.of_nat (length xs) = n /\
     (1 <= n ->
      exists x0, head xs = Some x0 /\
                 (is_nan x0 = false -> SFeqb x0 (F64.add vmin (half dv)) = true)) /\
     (2 <= n -> last xs = Some (F64.sub vmax (half dv)))) /\
  spec_centers_regular LAT_MIN LAT_MAX DLAT /\
  spec_centers_regular LON_MIN LON_MAX DLON.
Proof.
  split; [|split].
  - intros vmin vmax dv xs n Hc.
    destruct (centers_inv _ _ _ _ _ Hc) as [Hn Hl].
    destruct (linspace_length _ _ _ _ Hl) as [H0 Hlen].
    split; [exact Hn|]. split; [exact H0|]. split; [lia|]. split.
    + intros H1. exact (linspace_first _ _ _ _ Hl H1).
    + intros H2. exact (linspace_last _ _ _ _ Hl H2).
  - destruct (centers LAT_MIN LAT_MAX DLAT) as [[xs n]|e] eqn:E;
      [|vm_compute in E; discriminate].
    apply (centers_regular_check _ _ _ xs n E);
      vm_compute in E; injection E as <- <-; vm_compute; reflexivity.
  - destruct (centers LON_MIN LON_MAX DLON) as [[xs n]|e] eqn:E;
      [|vm_compute in E; discriminate].
    apply (centers_regular_check _ _ _ xs n E);
      vm_compute in E; injection E as <- <-; vm_compute; reflexivity.
Qed.

Lemma centers_count_and_spacing_witness :
  exists xs x0,
    centers (F64.of_Z 0) (F64.of_decimal 25 1) (F64.of_Z 1) = Ok (xs, 2) /\
    Z.of_nat (length xs) = 2 /\
    head xs = Some x0 /\ SFeqb x0 (F64.of_decimal 5 1) = true /\
    last xs = Some (F64.of_Z 2).
Proof.
  destruct (centers (F64.of_Z 0) (F64.of_decimal 25 1) (F64.of_Z 1))
    as [[xs n]|e] eqn:E.
  - assert (Hn : n = 2) by (vm_compute in E; injection E as _ <-; reflexivity).
    subst n.
    destruct (proj1 centers_count_and_spacing _ _ _ _ _ E)
      as (_ & _ & Hlen & Hfirst & Hlast).
    destruct (Hfirst ltac:(lia)) as (x0 & Hx0 & Heq).
    exists xs, x0. split; [reflexivity|]. split; [exact Hlen|]. split; [exact Hx0|].
    split.
    + assert (Hv : x0 = F64.of_decimal 5 1).
      { vm_compute in E. injection E as <-. cbn in Hx0. injection Hx0 as <-.
        vm_compute. reflexivity. }
      rewrite Hv in Heq |- *. exact (Heq eq_refl).
    + rewrite (Hlast ltac:(lia)). vm_compute. reflexivity.
  - vm_compute in E. discriminate.
Defined.

(** A loop whose body changes nothing changes nothing. *)
Lemma for_enumerate_noop {W A St} (body : nat -> A -> St -> M (W:=W) St) xs :
  (forall i x acc s, body i x acc s = (Ok acc, s)) ->
  forall i0 acc s, for_enumerate body i0 xs acc s = (Ok acc, s).
Proof.
  intros Hbody. induction xs as [|x xs IH]; intros i0 acc s; cbn.
  - reflexivity.
  - unfold mbind, M_bind. rewrite Hbody. apply IH.
Qed.

Lemma build_grid_lat_failure {W} (provider : call -> W -> result (list spec_float) * W)
    cast cfg e s :
  centers (lat_min cfg) (lat_max cfg) (cfg_dlat cfg) = Raise e ->
  build_grid_with provider cast cfg s = (Raise e, s).
Proof.
  intros H. unfold build_grid_with, fill_grid, mbind, M_bind, lift. rewrite H. reflexivity.
Qed.

Lemma build_grid_lon_failure {W} (provider : call -> W -> result (list spec_float) * W)
    cast cfg e s :
  centers (lon_min cfg) (lon_max cfg) (cfg_dlon cfg) = Raise e ->
  exists e', build_grid_with provider cast cfg s = (Raise e', s).
Proof.
  intros H. unfold build_grid_with, fill_grid, mbind, M_bind, lift.
  destruct (centers (lat_min cfg) _ _) as [[lats n1]|e1]; [|eauto].
  rewrite H. eauto.
Qed.

Lemma build_grid_no_lat {W} (provider : call -> W -> result (list spec_float) * W)
    cast cfg s :
  centers (lat_min cfg) (lat_max cfg) (cfg_dlat cfg) = Ok ([], 0) ->
  exists e, build_grid_with provider cast cfg s = (Raise e, s).
Proof.
  intros H. unfold build_grid_with, fill_grid, mbind, M_bind, lift. rewrite H.
  destruct (centers (lon_min cfg) _ _) as [[lons n2]|e2]; [|eauto].
  cbn. eauto.
Qed.

Lemma build_grid_no_lon {W} (provider : call -> W -> result (list spec_float) * W)
    cast cfg s :
  centers (lon_min cfg) (lon_max cfg) (cfg_dlon cfg) = Ok ([], 0) ->
  exists e, build_grid_with provider cast cfg s = (Raise e, s).
Proof.
  intros H. unfold build_grid_with, fill_grid, mbind, M_bind, lift.
  destruct (centers (lat_min cfg) _ _) as [[lats n1]|e1]; [|eauto].
  rewrite H.
  rewrite for_enumerate_noop by (intros; reflexivity).
  destruct (py_index lats 0); cbn; eauto.
Qed.

(** C7 fails as worded: for [(min, max, step) = (0, 0, 1)] the count is 0 and
    [centers] returns the empty sequence and the count 0. *)
Lemma centers_accepts_zero_count :
  ~ spec_centers_rejects (F64.of_Z 0) (F64.of_Z 0) (F64.of_Z 1).
Proof.
  intros H. destruct (H 0) as [e He].
  - vm_compute. reflexivity.
  - lia.
  - vm_compute in He. discriminate.
Qed.

(** C7, as the code has it.  A negative count makes [centers] fail (the
    [ValueError] of [linspace]); a zero count makes it return the empty
    sequence and the count 0.  In both cases [build_grid], run with that
    axis as its latitude or longitude axis, fails without a single call to
    the provider: its state, call log included, is unchanged. *)
Theorem centers_nonpositive_count vmin vmax dv n :
  cell_count vmin vmax dv = Ok n -> n <= 0 ->
  centers vmin vmax dv = (if n <? 0 then Raise ValueError else Ok ([], 0)) /\
  forall (W : Type) (provider : call -> W -> result (list spec_float) * W)
         (cast_undefined : spec_float -> Z) (cfg : config) (s : env (W:=W)),
    (lat_min cfg, lat_max cfg, cfg_dlat cfg) = (vmin, vmax, dv) \/
    (lon_min cfg, lon_max cfg, cfg_dlon cfg) = (vmin, vmax, dv) ->
    exists e, build_grid_with provider cast_undefined cfg s = (Raise e, s).
Proof.
  intros Hc Hn.
  assert (Hcen : centers vmin vmax dv = (if n <? 0 then Raise ValueError else Ok ([], 0))).
  { rewrite (centers_of_count _ _ _ _ Hc).
    destruct (Z.ltb_spec n 0) as [Hneg|Hz].
    - rewrite linspace_negative by assumption. reflexivity.
    - assert (n = 0) as -> by lia. reflexivity. }
  split; [exact Hcen|].
  intros W provider cast cfg s [[= <- <- <-]|[= <- <- <-]];
    destruct (Z.ltb_spec n 0).
  - eexists. apply build_grid_lat_failure. exact Hcen.
  - apply build_grid_no_lat. exact Hcen.
  - eapply build_grid_lon_failure. exact Hcen.
  - apply build_grid_no_lon. exact Hcen.
Qed.

Lemma centers_nonpositive_count_witness :
  centers (F64.of_Z 1) (F64.of_Z 0) (F64.of_Z 1)
    = (if -1 <? 0 then Raise ValueError else Ok ([], 0)) /\
  forall (W : Type) (provider : call -> W -> result (list spec_float) * W)
         (cast_undefined : spec_float -> Z) (cfg : config) (s : env (W:=W)),
    (lat_min cfg, lat_max cfg, cfg_dlat cfg) = (F64.of_Z 1, F64.of_Z 0, F64.of_Z 1) \/
    (lon_min cfg, lon_max cfg, cfg_dlon cfg) = (F64.of_Z 1, F64.of_Z 0, F64.of_Z 1) ->
    exists e, build_grid_with provider cast_undefined cfg s = (Raise e, s).
Proof.
  apply (centers_nonpositive_count (F64.of_Z 1) (F64.of_Z 0) (F64.of_Z 1) (-1)).
  - vm_compute. reflexivity.
  - lia.
Defined.

(** ** Climatology sampler *)

(** C4 fails as worded: [except TypeError] also catches a [TypeError] that
    is not a signature mismatch.  The keyword call of [faulty_provider]
    raises one; [lt_lookup] makes the positional call and returns its
    value. *)
Lemma fallback_on_any_type_error :
  ~ spec_sampler_fallback faulty_provider months LAT_MIN LON_MIN (Env () []).
Proof.
  intros [_ H]. specialize (H ltac:(discriminate)). discriminate H.
Qed.

(** C4, as the code has it.  For every provider, state and arguments: the
    keyword-style call is made first; if it raises a [TypeError] - the way
    Python reports a signature mismatch, but of whatever cause - the
    positional-style call is made, once, and its outcome, value or exception
    of any kind, is the outcome of [lt_lookup]; if the keyword-style call
    returns, or raises anything that is not a [TypeError], that outcome is
    passed on unchanged and no second call is made. *)
Theorem lt_lookup_dispatch {W : Type}
    (provider : call -> W -> result (list spec_float) * W)
    (ms : list Z) (lat lon : spec_float) (s : env (W:=W)) :
  let kw := Call Keyword ms lat lon in
  let pos := Call Positional ms lat lon in
  let first := provider kw (world s) in
  let second := provider pos first.2 in
  ((exists c, first.1 = Raise (TypeError c)) ->
     lt_lookup provider ms lat lon s
       = (second.1, Env second.2 (pos :: kw :: calls s))) /\
  ((forall c, first.1 <> Raise (TypeError c)) ->
     lt_lookup provider ms lat lon s
       = (first.1, Env first.2 (kw :: calls s))).
Proof.
  intros kw pos first second. unfold lt_lookup, invoke. fold kw pos.
  fold first. destruct first as [r1 w1] eqn:E1. cbn [fst snd] in *.
  split.
  - intros [c ->]. cbn [calls world].
    subst second. destruct (provider pos w1) as [r2 w2]. reflexivity.
  - intros Hne. destruct r1 as [v|[]]; try reflexivity.
    exfalso. eapply Hne. reflexivity.
Qed.

Lemma lt_lookup_dispatch_witness :
  lt_lookup legacy_provider months LAT_MIN LON_MIN (Env () [])
  = (Ok (replicate 12 LAT_MIN),
     Env () [Call Positional months LAT_MIN LON_MIN; Call Keyword months LAT_MIN LON_MIN]).
Proof.
  exact (proj1 (lt_lookup_dispatch legacy_provider months LAT_MIN LON_MIN (Env () []))
               (ex_intro _ SignatureMismatch eq_refl)).
Defined.

(** ** Quantizer *)

Lemma round_half_even_Qmake (a : Z) (b : positive) :
  round_half_even (Qmake a b) = rhe_div a (Zpos b).
Proof.
  unfold round_half_even, rhe_div. cbn [Qfloor].
  assert (Hcmp : Qcompare (Qmake a b - inject_Z (a / Zpos b)) (1 # 2)
                 = (2 * (a mod Zpos b) ?= Zpos b)).
  { unfold Qcompare, Qminus, Qplus, Qopp, inject_Z. cbn [Qnum Qden].
    rewrite Z.mod_eq by lia.
    rewrite Pos.mul_1_r. 
    replace ((a * 1 + - (a / Z.pos b) * Z.pos b) * 2) with (2 * (a - Zpos b * (a / Zpos b))) by ring.
    rewrite Z.mul_1_l. reflexivity. }
  rewrite Hcmp. reflexivity.
Qed.

Lemma rhe_div_bounds a b n :
  0 < b -> 0 <= a < n * b -> 0 <= n -> 0 <= rhe_div a b <= n.
Proof.
  intros Hb Ha Hn. unfold rhe_div.
  assert (0 <= a / b) by (apply Z.div_pos; lia).
  assert (a / b < n) by (apply Z.div_lt_upper_bound; lia).
  destruct (2 * (a mod b) ?= b); [destruct (Z.even _)| |]; lia.
Qed.

Lemma small_integral cast (k : Z) :
  0 <= k <= 255 -> astype_uint8 cast (integral false k) = k.
Proof.
  intros Hk.
  assert (Hall : forallb (fun n => let x := integral false (Z.of_nat n) in
                            is_finite x && (trunc x =? Z.of_nat n))
                         (seq 0 256) = true) by (vm_compute; reflexivity).
  rewrite forallb_forall in Hall.
  specialize (Hall (Z.to_nat k)). rewrite Z2Nat.id in Hall by lia.
  cbv zeta in Hall. 
  assert (Hin : In (Z.to_nat k) (seq 0 256)) by (apply in_seq; lia).
  apply Hall in Hin. apply andb_true_iff in Hin. destruct Hin as [Hf Ht].
  apply Z.eqb_eq in Ht. unfold astype_uint8. rewrite Hf, Ht.
  destruct (Z.leb_spec 0 k); [|lia]. destruct (Z.leb_spec k 255); [|lia]. reflexivity.
Qed.

(** A scale that fits the [scale] field of the header converts to a double. *)
Lemma byte_scale_fits (k : Z) : 0 <= k <= 255 -> is_inf (F64.of_Z k) = false.
Proof.
  intros Hk.
  assert (Hall : forallb (fun n => negb (is_inf (F64.of_Z (Z.of_nat n)))) (seq 0 256)
                 = true) by (vm_compute; reflexivity).
  rewrite forallb_forall in Hall.
  specialize (Hall (Z.to_nat k)). rewrite Z2Nat.id in Hall by lia.
  apply negb_true_iff, Hall, in_seq. lia.
Qed.

Lemma valid64_mantissa s m e :
  F64.valid (S754_finite s m e) = true ->
  Zpos m < 2 ^ 53 /\ (-1074 < e -> 2 ^ 52 <= Zpos m).
Proof.
  unfold F64.valid. cbn [valid_binary]. unfold bounded. intros H.
  apply andb_true_iff in H. destruct H as [H _].
  apply canonical_digits in H. unfold fexp, emin, F64.prec, F64.emax in H.
  pose proof (Z.log2_nonneg (Zpos m)).
  split.
  - apply Z.log2_lt_pow2; lia.
  - intros He. apply Z.log2_le_pow2; lia.
Qed.

Lemma Qclip_low q : (Qnum q <= 0) -> Qclip 0 255 q = 0%Q.
Proof.
  intros H. unfold Qclip, Qle_bool. cbn [Qnum Qden].
  destruct (Z.leb_spec (Qnum q * 1) (0 * Zpos (Qden q))); [reflexivity|lia].
Qed.

Lemma Qclip_high q : (255 * Zpos (Qden q) <= Qnum q) -> Qclip 0 255 q = 255%Q.
Proof.
  intros H. unfold Qclip, Qle_bool. cbn [Qnum Qden].
  destruct (Z.leb_spec (Qnum q * 1) (0 * Zpos (Qden q))); [lia|].
  destruct (Z.leb_spec (255 * Zpos (Qden q)) (Qnum q * 1)); [reflexivity|lia].
Qed.

Lemma Qclip_mid q : 0 < Qnum q < 255 * Zpos (Qden q) -> Qclip 0 255 q = q.
Proof.
  intros H. unfold Qclip, Qle_bool. cbn [Qnum Qden].
  destruct (Z.leb_spec (Qnum q * 1) (0 * Zpos (Qden q))); [lia|].
  destruct (Z.leb_spec (255 * Zpos (Qden q)) (Qnum q * 1)); [lia|reflexivity].
Qed.

Lemma below_255 m e :
  F64.valid (S754_finite false m e) = true ->
  SFltb (S754_finite false m e) (F64.of_Z 255) = true ->
  e < 0 /\ Zpos m < 255 * 2 ^ (- e).
Proof.
  intros Hv. destruct (valid64_mantissa _ _ _ Hv) as [Hlt _]. clear Hv.
  change (F64.of_Z 255) with (S754_finite false 8972014882652160 (-45)).
  unfold SFltb, SFcompare.
  destruct (Z.compare_spec e (-45)) as [->|He|He]; try discriminate.
  - destruct (Pos.compare_cont Eq m 8972014882652160) eqn:Ec; try discriminate.
    intros _.
    assert (Hm : Zpos m < 8972014882652160) by exact Ec. clear Ec.
    split; [lia|]. change (255 * 2 ^ (- -45)) with 8972014882652160. exact Hm.
  - intros _. split; [lia|].
    assert (H46 : 2 ^ 46 <= 2 ^ (- e)) by (apply Z.pow_le_mono_r; lia).
    eapply Z.lt_le_trans; [exact Hlt|].
    transitivity (255 * 2 ^ 46); [vm_compute; discriminate|].
    apply Z.mul_le_mono_nonneg_l; [lia|exact H46].
Qed.

Lemma at_least_255 m e :
  F64.valid (S754_finite false m e) = true ->
  SFltb (S754_finite false m e) (F64.of_Z 255) = false ->
  (0 <= e /\ 255 <= Zpos m * 2 ^ e) \/ (e < 0 /\ 255 * 2 ^ (- e) <= Zpos m).
Proof.
  intros Hv. destruct (valid64_mantissa _ _ _ Hv) as [_ Hge]. clear Hv.
  change (F64.of_Z 255) with (S754_finite false 8972014882652160 (-45)).
  unfold SFltb, SFcompare.
  destruct (Z.compare_spec e (-45)) as [->|He|He]; try discriminate.
  - destruct (Pos.compare_cont Eq m 8972014882652160) eqn:Ec; try discriminate;
      intros _; right; (split; [lia|]);
      change (255 * 2 ^ (- -45)) with 8972014882652160.
    + pose proof (Pos.compare_eq _ _ Ec) as Hm. subst m. lia.
    + assert (Hm : Zpos m > 8972014882652160) by exact Ec. clear Ec. lia.
  - intros _. specialize (Hge ltac:(lia)).
    assert (H255 : 255 <= 2 ^ 52) by (vm_compute; discriminate).
    destruct (Z.leb_spec 0 e) as [He0|He0]; [left|right]; (split; [assumption|]).
    + assert (1 <= 2 ^ e) by (pose proof (Z.pow_pos_nonneg 2 e); lia).
      transitivity (Zpos m * 1); [lia|].
      apply Z.mul_le_mono_nonneg_l; lia.
    + assert (H44 : 2 ^ (- e) <= 2 ^ 44) by (apply Z.pow_le_mono_r; lia).
      transitivity (255 * 2 ^ 44).
      * apply Z.mul_le_mono_nonneg_l; [lia|exact H44].
      * transitivity (2 ^ 52); [vm_compute; discriminate|exact Hge].
Qed.

Lemma quantize_pipeline cast (x : spec_float) :
  F64.valid x = true -> is_nan x = false ->
  let b := astype_uint8 cast (np_rint (np_clip x (F64.of_Z 0) (F64.of_Z 255))) in
  b = round_half_even (clip_0_255 x) /\ 0 <= b <= 255.
Proof.
  intros Hv Hn.
  destruct x as [s|s| |s m e]; try discriminate.
  - destruct s; vm_compute; repeat split; congruence.
  - destruct s; vm_compute; repeat split; congruence.
  - destruct s.
    + (* negative: clipped to 0 *)
      assert (Hq : clip_0_255 (S754_finite true m e) = 0%Q).
      { unfold clip_0_255. apply Qclip_low. unfold SF2Q, smant, cond_Zopp.
        destruct (0 <=? e); cbn [Qnum inject_Z]; [|lia].
        pose proof (Z.pow_nonneg 2 e ltac:(lia)).
        apply Z.mul_nonpos_nonneg; lia. }
      cbv zeta. rewrite Hq.
      change (np_clip (S754_finite true m e) (F64.of_Z 0) (F64.of_Z 255))
        with (S754_zero false).
      vm_compute. repeat split; congruence.
    + assert (Hclip : np_clip (S754_finite false m e) (F64.of_Z 0) (F64.of_Z 255)
                = if SFltb (S754_finite false m e) (F64.of_Z 255)
                  then S754_finite false m e else F64.of_Z 255) by reflexivity.
      cbv zeta. rewrite Hclip. clear Hclip.
      destruct (SFltb (S754_finite false m e) (F64.of_Z 255)) eqn:Hlt255.
      * (* strictly below 255: rounded *)
        destruct (below_255 m e Hv Hlt255) as [He Hm].
        assert (HB : 0 < 2 ^ (- e)) by (apply Z.pow_pos_nonneg; lia).
        cbn [np_rint]. destruct (Z.leb_spec 0 e); [lia|].
        assert (Hk : 0 <= rhe_finite false m e <= 255).
        { unfold rhe_finite. destruct (Z.leb_spec 0 e); [lia|].
          apply rhe_div_bounds; cbn [smant cond_Zopp]; lia. }
        rewrite small_integral by exact Hk.
        split; [|exact Hk].
        unfold clip_0_255, SF2Q. destruct (Z.leb_spec 0 e); [lia|].
        rewrite Qclip_mid.
        2:{ cbn [Qnum Qden smant cond_Zopp]. rewrite Z2Pos.id by lia. lia. }
        rewrite round_half_even_Qmake, Z2Pos.id by lia.
        unfold rhe_finite. destruct (Z.leb_spec 0 e); [lia|]. reflexivity.
      * (* at least 255: saturated *)
        assert (Hq : clip_0_255 (S754_finite false m e) = 255%Q).
        { unfold clip_0_255. apply Qclip_high. unfold SF2Q, smant, cond_Zopp.
          destruct (at_least_255 m e Hv Hlt255) as [[He H]|[He H]].
          - destruct (Z.leb_spec 0 e); [|lia]. cbn [Qnum Qden inject_Z]. lia.
          - destruct (Z.leb_spec 0 e); [lia|]. cbn [Qnum Qden].
            assert (HB : 0 < 2 ^ (- e)) by (apply Z.pow_pos_nonneg; lia).
            rewrite Z2Pos.id by lia. exact H. }
        rewrite Hq. vm_compute. repeat split; congruence.
Qed.

Lemma scale_valid : F64.valid (F64.of_Z SCALE) = true.
Proof. reflexivity. Qed.

Lemma quantize_eq_pipeline cast scale v :
  quantize cast scale v
  = astype_uint8 cast
      (np_rint (np_clip (F64.mul v (F64.of_Z scale)) (F64.of_Z 0) (F64.of_Z 255))).
Proof. reflexivity. Qed.

(** C2.  For every finite binary64 value the stored byte is
    round-half-to-even of the scaled float clipped to [0, 255] (clip first,
    then round), and it lies in [0, 255]; 3.07 gives 61, 13.0 gives 255 and
    -1.0 gives 0. *)
Theorem quantize_correct (cast_undefined : spec_float -> Z) :
  (forall v, F64.valid v = true -> is_finite v = true ->
     quantize cast_undefined SCALE v = quantize_spec SCALE v /\
     0 <= quantize cast_undefined SCALE v <= 255) /\
  quantize cast_undefined SCALE (F64.of_decimal 307 2) = 61 /\
  quantize cast_undefined SCALE (F64.of_Z 13) = 255 /\
  quantize cast_undefined SCALE (F64.of_Z (-1)) = 0.
Proof.
  split; [|repeat split; vm_compute; reflexivity].
  intros v Hv Hf. rewrite quantize_eq_pipeline. unfold quantize_spec.
  apply quantize_pipeline.
  - apply SFmul_valid; [reflexivity|reflexivity|exact Hv|exact scale_valid].
  - apply SFmul_finite_not_nan;
      [reflexivity|reflexivity|exact Hv|exact scale_valid|exact Hf|reflexivity].
Qed.

Lemma quantize_correct_witness :
  quantize cast_zero SCALE (F64.of_decimal 307 2)
    = quantize_spec SCALE (F64.of_decimal 307 2) /\
  0 <= quantize cast_zero SCALE (F64.of_decimal 307 2) <= 255.
Proof.
  apply (proj1 (quantize_correct cast_zero) (F64.of_decimal 307 2)).
  - vm_compute. reflexivity.
  - vm_compute. reflexivity.
Defined.

(** C8 fails on the code: a provider that returns [+inf] for every month
    has its cell stored (as 255s), and no exception is raised. *)
Lemma nonfinite_is_stored :
  ~ spec_rejects_nonfinite (flat_provider pinf) cast_zero CONFIG 1 1 0 0
      LAT_MIN LON_MIN (zeros 12 1 1) (Env () []).
Proof.
  intros H.
  destruct (H (replicate 12 pinf) (Env () [Call Keyword months LAT_MIN LON_MIN]))
    as [e He].
  - reflexivity.
  - apply Exists_cons_hd. reflexivity.
  - vm_compute in He. discriminate.
Qed.

Lemma sample_cell_stores {W : Type}
    (provider : call -> W -> result (list spec_float) * W)
    (cast_undefined : spec_float -> Z) cfg (b c i j : nat) lat lon out s tl s1 :
  lt_lookup provider months lat lon s = (Ok tl, s1) ->
  is_inf (F64.of_Z (cfg_scale cfg)) = false ->
  length tl = length out -> (i < b)%nat -> (j < c)%nat ->
  sample_cell provider cast_undefined cfg b c i j lat lon out s
  = (Ok (put_column out i j (quantize cast_undefined (cfg_scale cfg) <$> tl)), s1).
Proof.
  intros Hl Hfit Hlen Hi Hj. unfold sample_cell, mbind, M_bind. rewrite Hl.
  unfold lift, float_of_int. rewrite Hfit. unfold assign_column.
  destruct (Nat.ltb_spec i b); [|lia]. destruct (Nat.ltb_spec j c); [|lia].
  cbn [andb negb]. rewrite length_fmap, Hlen, Nat.eqb_refl. reflexivity.
Qed.

(** C8, as the code has it.  The quantizer has no failure path: [+inf] is
    stored as 255, [-inf] as 0, NaN as the platform's conversion of NaN; and,
    with a scale that fits the header's [scale] field (as the shipped 20
    does), a cell of an array of shape (12, b, c) whose twelve-month series
    was obtained is stored whatever its values are. *)
Theorem quantize_nonfinite_silent (cast_undefined : spec_float -> Z) :
  quantize cast_undefined SCALE pinf = 255 /\
  quantize cast_undefined SCALE ninf = 0 /\
  quantize cast_undefined SCALE S754_nan = cast_undefined S754_nan mod 256 /\
  forall (W : Type) (provider : call -> W -> result (list spec_float) * W)
         cfg (b c i j : nat) lat lon out s tl s1,
    lt_lookup provider months lat lon s = (Ok tl, s1) ->
    0 <= cfg_scale cfg <= 255 ->
    has_shape 12 b c out -> length tl = 12%nat -> (i < b)%nat -> (j < c)%nat ->
    sample_cell provider cast_undefined cfg b c i j lat lon out s
    = (Ok (put_column out i j (quantize cast_undefined (cfg_scale cfg) <$> tl)), s1).
Proof.
  split; [reflexivity|]. split; [reflexivity|]. split; [reflexivity|].
  intros W provider cfg b c i j lat lon out s tl s1 Hl Hsc Hs Hlen Hi Hj.
  apply sample_cell_stores;
    [exact Hl|apply byte_scale_fits; exact Hsc| |exact Hi|exact Hj].
  destruct Hs as [-> _]. exact Hlen.
Qed.

Lemma quantize_nonfinite_silent_witness :
  sample_cell (flat_provider pinf) cast_zero CONFIG 1 1 0 0 LAT_MIN LON_MIN
    (zeros 12 1 1) (Env () [])
  = (Ok (replicate 12 [[255]]), Env () [Call Keyword months LAT_MIN LON_MIN]).
Proof.
  rewrite (proj2 (proj2 (proj2 (quantize_nonfinite_silent cast_zero)))
             unit (flat_provider pinf) CONFIG 1%nat 1%nat 0%nat 0%nat LAT_MIN LON_MIN
             (zeros 12 1 1) (Env () []) (replicate 12 pinf)
             (Env () [Call Keyword months LAT_MIN LON_MIN]));
    [reflexivity|reflexivity|change (cfg_scale CONFIG) with 20; lia
    |split; [reflexivity|repeat constructor]|reflexivity|lia|lia].
Defined.

(** ** Binary encoder *)

Lemma length_le_bytes n w : length (le_bytes n w) = n.
Proof. revert w. induction n as [|n IH]; intros w; cbn; [reflexivity|]. by rewrite IH. Qed.

Lemma le_value_le_bytes n w :
  0 <= w < 256 ^ Z.of_nat n -> le_value (le_bytes n w) = w.
Proof.
  revert w. induction n as [|n IH]; intros w Hw; cbn [le_bytes le_value].
  - change (256 ^ Z.of_nat 0) with 1 in Hw. lia.
  - rewrite IH.
    + pose proof (Z.div_mod w 256 ltac:(lia)). lia.
    + rewrite Nat2Z.inj_succ, Z.pow_succ_r in Hw by lia.
      split; [apply Z.div_pos; lia|].
      apply Z.div_lt_upper_bound; lia.
Qed.

Lemma reshape_join {A} (c : nat) (ls : list (list A)) :
  Forall (fun l => length l = c) ls ->
  reshape (replicate (length ls) c) (mjoin ls) = ls.
Proof.
  induction 1 as [|l ls Hl Hls IH]; [reflexivity|].
  change (reshape (replicate (length (l :: ls)) c) (mjoin (l :: ls)))
    with (take c (l ++ mjoin ls)
          :: reshape (replicate (length ls) c) (drop c (l ++ mjoin ls))).
  rewrite take_app_length', drop_app_length' by done. by rewrite IH.
Qed.

Lemma length_join_same {A} (c : nat) (ls : list (list A)) :
  Forall (fun l => length l = c) ls -> length (mjoin ls) = (length ls * c)%nat.
Proof.
  induction 1 as [|l ls Hl Hls IH]; [reflexivity|].
  change (mjoin (l :: ls)) with (l ++ mjoin ls).
  rewrite length_app, IH, Hl. reflexivity.
Qed.

Lemma has_shape_rows a b c arr :
  has_shape a b c arr ->
  Forall (fun plane => length plane = b) arr /\
  Forall (fun row => length row = c) (mjoin arr).
Proof.
  intros [_ H]. split.
  - eapply Forall_impl; [exact H|]. by intros ? [? _].
  - apply Forall_join. eapply Forall_impl; [exact H|]. by intros ? [_ ?].
Qed.

Lemma length_tobytes a b c arr :
  has_shape a b c arr -> length (tobytes arr) = (a * b * c)%nat.
Proof.
  intros Hs. destruct (has_shape_rows _ _ _ _ Hs) as [Hp Hr].
  unfold tobytes. rewrite (length_join_same c) by done.
  rewrite (length_join_same b) by done. destruct Hs as [-> _]. reflexivity.
Qed.

Lemma tobytes_lookup a b c arr (m i j : nat) :
  has_shape a b c arr -> (i < b)%nat -> (j < c)%nat ->
  tobytes arr !! ((m * b + i) * c + j)%nat = vget arr m i j.
Proof.
  intros Hs Hi Hj. destruct (has_shape_rows _ _ _ _ Hs) as [Hp Hr].
  unfold tobytes, vget.
  destruct (arr !! m) as [plane|] eqn:Em; cbn.
  - destruct (plane !! i) as [row|] eqn:Ei; cbn.
    + destruct (row !! j) as [v|] eqn:Ej.
      * apply (join_lookup_Some_same_length' c); [done..|].
        exists row. split; [|done].
        apply (join_lookup_Some_same_length' b); [done..|]. eauto.
      * apply lookup_ge_None_2.
        assert (length row = c).
        { eapply (Forall_lookup_1 _ _ _ _ Hr).
          apply (join_lookup_Some_same_length' b); [done..|]. eauto. }
        apply lookup_ge_None_1 in Ej. lia.
    + apply lookup_ge_None_1 in Ei.
      assert (length plane = b) by (eapply (Forall_lookup_1 _ _ _ _ Hp); eauto). lia.
  - apply lookup_ge_None_1 in Em. apply lookup_ge_None_2.
    rewrite (length_join_same c), (length_join_same b) by done.
    transitivity (m * b * c)%nat.
    + do 2 apply Nat.mul_le_mono_r. exact Em.
    + rewrite Nat.mul_add_distr_r. lia.
Qed.

Lemma join_join {A} (ls : list (list (list A))) :
  mjoin (mjoin ls) = mjoin (mjoin <$> ls).
Proof.
  induction ls as [|l ls IH]; [reflexivity|].
  change (mjoin (l :: ls)) with (l ++ mjoin ls).
  change (mjoin (mjoin <$> l :: ls)) with (mjoin l ++ mjoin (mjoin <$> ls)).
  rewrite join_app, IH. reflexivity.
Qed.

Lemma reshape3_tobytes a b c arr :
  has_shape a b c arr -> reshape3 a b c (tobytes arr) = arr.
Proof.
  intros [Ha Hs]. unfold reshape3, tobytes. rewrite join_join.
  assert (Hlen : Forall (fun l : list Z => length l = (b * c)%nat)
                        (mjoin (M:=list) (A:=Z) <$> arr)).
  { apply Forall_fmap. eapply Forall_impl; [exact Hs|]. intros plane [Hb Hc]. cbn.
    rewrite (length_join_same c), Hb by done. reflexivity. }
  rewrite <- Ha. rewrite <- (length_fmap (mjoin (M:=list) (A:=Z)) arr) at 1.
  rewrite reshape_join by done.
  rewrite <- list_fmap_compose.
  rewrite <- (list_fmap_id arr) at 2.
  apply Forall_fmap_ext. eapply Forall_impl; [exact Hs|].
  intros plane [Hb Hc]. cbn. rewrite <- Hb. by apply reshape_join.
Qed.

(** *** binary32 interchange encoding *)

Lemma valid32_mantissa s m e :
  F32.valid (S754_finite s m e) = true ->
  Zpos m < 2 ^ 24 /\ (-149 < e -> 2 ^ 23 <= Zpos m) /\ -149 <= e <= 104.
Proof.
  unfold F32.valid. cbn [valid_binary]. unfold bounded. intros H.
  apply andb_true_iff in H. destruct H as [H Hb].
  apply canonical_digits in H. unfold fexp, emin, F32.prec, F32.emax in *.
  apply Z.leb_le in Hb.
  pose proof (Z.log2_nonneg (Zpos m)).
  split; [apply Z.log2_lt_pow2; lia|].
  split; [intros He; apply Z.log2_le_pow2; lia|lia].
Qed.

Lemma bits_fields (s : bool) (be f : Z) :
  0 <= be < 256 -> 0 <= f < 8388608 ->
  let w := F32.sign_bit s + be * 8388608 + f in
  (2147483648 <=? w) = s /\ (w / 8388608) mod 256 = be /\ w mod 8388608 = f /\
  0 <= w < 4294967296.
Proof.
  intros Hbe Hf w. subst w. unfold F32.sign_bit.
  change (2 ^ 31) with 2147483648.
  set (k := if s then 256 else 0).
  assert (Hk : (if s then 2147483648 else 0) = k * 8388608) by (destruct s; reflexivity).
  assert (Hk' : k = 0 \/ k = 256) by (destruct s; auto).
  rewrite Hk.
  assert (Hdiv : (k * 8388608 + be * 8388608 + f) / 8388608 = k + be).
  { symmetry. apply (Z.div_unique _ _ _ f); lia. }
  assert (Hmod : (k * 8388608 + be * 8388608 + f) mod 8388608 = f).
  { symmetry. apply (Z.mod_unique _ _ (k + be)); lia. }
  rewrite Hdiv, Hmod.
  split; [|split; [|split; [reflexivity|lia]]].
  - destruct s; subst k; [apply Z.leb_le|apply Z.leb_gt]; lia.
  - symmetry. destruct s; subst k;
      [apply (Z.mod_unique _ _ 1)|apply (Z.mod_unique _ _ 0)]; lia.
Qed.

Lemma f32_bits_range x : F32.valid x = true -> 0 <= F32.bits x < 2 ^ 32.
Proof.
  intros Hv. change (2 ^ 32) with 4294967296.
  destruct x as [s|s| |s m e]; unfold F32.bits.
  - destruct s; vm_compute; split; congruence.
  - destruct s; vm_compute; split; congruence.
  - vm_compute; split; congruence.
  - destruct (valid32_mantissa _ _ _ Hv) as (Hlt & Hge & He).
    change (2 ^ 24) with 16777216 in Hlt. change (2 ^ 23) with 8388608 in *.
    destruct (Z.ltb_spec (Zpos m) 8388608).
    + pose proof (bits_fields s 0 (Zpos m) ltac:(lia) ltac:(lia)) as H'.
      cbv zeta in H'. lia.
    + destruct (Z.eq_dec e (-149)) as [->|Hne].
      * pose proof (bits_fields s 1 (Zpos m - 8388608) ltac:(lia) ltac:(lia)) as H'.
        cbv zeta in H'. lia.
      * pose proof (bits_fields s (e + 150) (Zpos m - 8388608) ltac:(lia) ltac:(lia)) as H'.
        cbv zeta in H'. lia.
Qed.

Lemma f32_of_bits_bits x : F32.valid x = true -> F32.of_bits (F32.bits x) = x.
Proof.
  intros Hv.
  destruct x as [s|s| |s m e].
  - destruct s; reflexivity.
  - destruct s; reflexivity.
  - reflexivity.
  - destruct (valid32_mantissa _ _ _ Hv) as (Hlt & Hge & He).
    change (2 ^ 24) with 16777216 in Hlt. change (2 ^ 23) with 8388608 in *.
    unfold F32.bits, F32.of_bits.
    change (2 ^ 23) with 8388608. change (2 ^ 31) with 2147483648.
    destruct (Z.ltb_spec (Zpos m) 8388608) as [Hsub|Hnorm].
    + assert (e = -149) as -> by lia.
      pose proof (bits_fields s 0 (Zpos m) ltac:(lia) ltac:(lia)) as H'.
      cbv zeta in H'. rewrite Z.mul_0_l, Z.add_0_r in H'.
      destruct H' as (-> & -> & -> & _). reflexivity.
    + pose proof (bits_fields s (e + 150) (Zpos m - 8388608) ltac:(lia) ltac:(lia)) as H'.
      cbv zeta in H'. destruct H' as (-> & -> & -> & _).
      destruct (Z.eqb_spec (e + 150) 0); [lia|].
      destruct (Z.eqb_spec (e + 150) 255); [lia|].
      replace (Zpos m - 8388608 + 8388608) with (Zpos m) by lia.
      f_equal. lia.
Qed.

Lemma of_f64_valid x : F32.valid (F32.of_f64 x) = true.
Proof.
  destruct x as [s|s| |s m e]; try reflexivity.
  apply binary_round_valid. reflexivity.
Qed.

Lemma read_packed_f32 (x : spec_float) :
  F32.of_bits (le_value (le_bytes 4 (F32.bits (F32.of_f64 x)))) = F32.of_f64 x.
Proof.
  rewrite le_value_le_bytes.
  - apply f32_of_bits_bits, of_f64_valid.
  - change (256 ^ Z.of_nat 4) with (2 ^ 32). apply f32_bits_range, of_f64_valid.
Qed.

(** *** Header and file *)

Lemma pack_H_ok x : 0 <= x <= 65535 -> pack_H x = Ok (le_bytes 2 x).
Proof.
  intros H. unfold pack_H.
  destruct (Z.leb_spec 0 x); [|lia]. destruct (Z.leb_spec x 65535); [|lia]. reflexivity.
Qed.

Lemma pack_H_fail x : ~ 0 <= x <= 65535 -> pack_H x = Raise StructError.
Proof.
  intros H. unfold pack_H.
  destruct (Z.leb_spec 0 x); [|reflexivity].
  destruct (Z.leb_spec x 65535); [lia|reflexivity].
Qed.

Lemma pack_B_ok x : 0 <= x <= 255 -> pack_B x = Ok (le_bytes 1 x).
Proof.
  intros H. unfold pack_B.
  destruct (Z.leb_spec 0 x); [|lia]. destruct (Z.leb_spec x 255); [|lia]. reflexivity.
Qed.

Lemma pack_B_fail x : ~ 0 <= x <= 255 -> pack_B x = Raise StructError.
Proof.
  intros H. unfold pack_B.
  destruct (Z.leb_spec 0 x); [|reflexivity].
  destruct (Z.leb_spec x 255); [lia|reflexivity].
Qed.

Lemma pack_f_ok x :
  f32_overflows x = false -> pack_f x = Ok (le_bytes 4 (F32.bits (F32.of_f64 x))).
Proof. intros H. unfold pack_f. rewrite H. reflexivity. Qed.

Lemma pack_f_fail x : f32_overflows x = true -> pack_f x = Raise OverflowError.
Proof. intros H. unfold pack_f. rewrite H. reflexivity. Qed.

(** The header as one list, when every field fits. *)
Lemma header_ok mt :
  within_widths mt -> floats_fit mt ->
  header mt =
    Ok (magic ++ le_bytes 2 2 ++ le_bytes 2 (nlat mt) ++ le_bytes 2 (nlon mt)
        ++ le_bytes 1 (scale mt) ++ le_bytes 1 0
        ++ le_bytes 4 (F32.bits (F32.of_f64 (lat0 mt)))
        ++ le_bytes 4 (F32.bits (F32.of_f64 (lon0 mt)))
        ++ le_bytes 4 (F32.bits (F32.of_f64 (dlat mt)))
        ++ le_bytes 4 (F32.bits (F32.of_f64 (dlon mt)))).
Proof.
  intros (Hlat & Hlon & Hsc) (H1 & H2 & H3 & H4). unfold header, pack_ffff.
  rewrite (pack_H_ok (nlat mt)), (pack_H_ok (nlon mt)), (pack_B_ok (scale mt)) by assumption.
  rewrite !pack_f_ok by assumption. reflexivity.
Qed.

(** Otherwise [struct.pack] raises, with [struct.error] or [OverflowError]. *)
Lemma header_fail mt :
  ~ (within_widths mt /\ floats_fit mt) ->
  header mt = Raise StructError \/ header mt = Raise OverflowError.
Proof.
  intros Hno. unfold header, pack_ffff.
  destruct (decide (0 <= nlat mt <= 65535)) as [Hlat|Hlat];
    [rewrite (pack_H_ok (nlat mt)) by assumption
    |rewrite (pack_H_fail (nlat mt)) by assumption; left; reflexivity].
  destruct (decide (0 <= nlon mt <= 65535)) as [Hlon|Hlon];
    [rewrite (pack_H_ok (nlon mt)) by assumption
    |rewrite (pack_H_fail (nlon mt)) by assumption; left; reflexivity].
  destruct (decide (0 <= scale mt <= 255)) as [Hsc|Hsc];
    [rewrite (pack_B_ok (scale mt)) by assumption
    |rewrite (pack_B_fail (scale mt)) by assumption; left; reflexivity].
  right.
  destruct (f32_overflows (lat0 mt)) eqn:E1;
    [rewrite (pack_f_fail (lat0 mt)) by assumption; reflexivity
    |rewrite (pack_f_ok (lat0 mt)) by assumption].
  destruct (f32_overflows (lon0 mt)) eqn:E2;
    [rewrite (pack_f_fail (lon0 mt)) by assumption; reflexivity
    |rewrite (pack_f_ok (lon0 mt)) by assumption].
  destruct (f32_overflows (dlat mt)) eqn:E3;
    [rewrite (pack_f_fail (dlat mt)) by assumption; reflexivity
    |rewrite (pack_f_ok (dlat mt)) by assumption].
  destruct (f32_overflows (dlon mt)) eqn:E4;
    [rewrite (pack_f_fail (dlon mt)) by assumption; reflexivity|].
  exfalso. apply Hno. repeat split; assumption || lia.
Qed.

Lemma header_inv mt h :
  header mt = Ok h -> within_widths mt /\ floats_fit mt.
Proof.
  intros Hh. destruct (decide (within_widths mt /\ floats_fit mt)) as [H|H]; [exact H|].
  destruct (header_fail mt H) as [E|E]; rewrite E in Hh; discriminate.
Qed.

Lemma write_bin_ok sys path arr mt fs h :
  header mt = Ok h -> writable sys path ->
  write_bin sys path arr mt fs = (Ok (), <[path := h ++ tobytes arr]> fs).
Proof.
  intros Hh [Ho Hw]. unfold write_bin. rewrite Hh. unfold fs_write, fs_open_wb.
  rewrite Ho, !Hw, !alter_insert_eq. reflexivity.
Qed.

Lemma write_bin_raise sys path arr mt fs e :
  header mt = Raise e -> write_bin sys path arr mt fs = (Raise e, fs).
Proof. intros Hh. unfold write_bin. rewrite Hh. reflexivity. Qed.

Lemma write_bin_closed sys path arr mt fs h :
  header mt = Ok h -> can_open sys path = false ->
  write_bin sys path arr mt fs = (Raise OSError, fs).
Proof.
  intros Hh Ho. unfold write_bin, fs_open_wb. rewrite Hh, Ho. reflexivity.
Qed.

(** The outcomes of [write_bin] once the header is built: the file is
    written, or [OSError] is raised and no other path is touched. *)
Lemma write_bin_opened sys path arr mt fs h r fs' :
  header mt = Ok h -> write_bin sys path arr mt fs = (r, fs') ->
  (r = Ok () /\ fs' = <[path := h ++ tobytes arr]> fs) \/
  (r = Raise OSError /\ forall p, p <> path -> fs' !! p = fs !! p).
Proof.
  intros Hh. unfold write_bin, fs_open_wb, fs_write. rewrite Hh.
  destruct (can_open sys path); [|intros H; injection H as <- <-; right; auto].
  destruct (can_write sys path h).
  - destruct (can_write sys path (tobytes arr)); intros H; injection H as <- <-.
    + left. rewrite !alter_insert_eq. auto.
    + right. split; [reflexivity|]. intros p Hp.
      rewrite lookup_insert_ne by congruence.
      rewrite lookup_alter_ne by congruence.
      apply lookup_insert_ne. congruence.
  - intros H. injection H as <- <-. right. split; [reflexivity|]. intros p Hp.
    rewrite lookup_insert_ne by congruence. apply lookup_insert_ne. congruence.
Qed.

Lemma write_bin_inv sys path arr mt fs fs' :
  write_bin sys path arr mt fs = (Ok (), fs') ->
  exists h, header mt = Ok h /\ fs' = <[path := h ++ tobytes arr]> fs.
Proof.
  intros Hw. destruct (header mt) as [h|e] eqn:Hh.
  - exists h. split; [reflexivity|].
    destruct (write_bin_opened _ _ _ _ _ _ _ _ Hh Hw) as [[_ H]|[H _]];
      [exact H|discriminate].
  - rewrite (write_bin_raise _ _ _ _ _ _ Hh) in Hw. discriminate.
Qed.

Lemma sound_writable path : writable sound path.
Proof. split; [reflexivity|]. intros data. reflexivity. Qed.

Lemma written_ok arr mt h :
  header mt = Ok h -> written arr mt = Some (h ++ tobytes arr).
Proof.
  intros Hh. unfold written.
  rewrite (write_bin_ok _ _ _ _ _ _ Hh (sound_writable _)). cbn [is_ok].
  apply lookup_insert_eq.
Qed.

(** The 28 header bytes followed by a payload, cut at the offsets of the
    format table. *)
Lemma layout_slices (a b sc w1 w2 w3 w4 : Z) (p : list Z) :
  let bs := magic ++ le_bytes 2 2 ++ le_bytes 2 a ++ le_bytes 2 b
            ++ le_bytes 1 sc ++ le_bytes 1 0
            ++ le_bytes 4 w1 ++ le_bytes 4 w2 ++ le_bytes 4 w3 ++ le_bytes 4 w4 in
  slice 0 4 (bs ++ p) = magic /\
  slice 4 2 (bs ++ p) = [2; 0] /\
  slice 6 2 (bs ++ p) = le_bytes 2 a /\
  slice 8 2 (bs ++ p) = le_bytes 2 b /\
  slice 10 1 (bs ++ p) = le_bytes 1 sc /\
  slice 11 1 (bs ++ p) = [0] /\
  slice 12 4 (bs ++ p) = le_bytes 4 w1 /\
  slice 16 4 (bs ++ p) = le_bytes 4 w2 /\
  slice 20 4 (bs ++ p) = le_bytes 4 w3 /\
  slice 24 4 (bs ++ p) = le_bytes 4 w4 /\
  drop 28 (bs ++ p) = p /\
  length bs = 28%nat.
Proof. repeat split; reflexivity. Qed.

Lemma le_bytes_1 x : 0 <= x <= 255 -> le_bytes 1 x = [x].
Proof. intros H. cbn. rewrite Z.mod_small by lia. reflexivity. Qed.

(** C1.  When [write_bin] succeeds on an array of shape [(12, nlat, nlon)],
    the file holds: "TLB2"; the uint16 2; [nlat] and [nlon] as little-endian
    uint16; [scale]; a zero byte; [lat0], [lon0], [dlat], [dlon] as
    little-endian binary32 values; and, at offset
    [28 + m*nlat*nlon + i*nlon + j], the array element [(m, i, j)]. *)
Theorem write_bin_layout sys path arr mt fs fs' :
  write_bin sys path arr mt fs = (Ok (), fs') ->
  has_shape 12 (Z.to_nat (nlat mt)) (Z.to_nat (nlon mt)) arr ->
  exists bs,
    fs' !! path = Some bs /\
    length bs = (28 + 12 * Z.to_nat (nlat mt) * Z.to_nat (nlon mt))%nat /\
    slice 0 4 bs = [84; 76; 66; 50] /\
    slice 4 2 bs = [2; 0] /\
    slice 6 2 bs = le_bytes 2 (nlat mt) /\ le_value (slice 6 2 bs) = nlat mt /\
    slice 8 2 bs = le_bytes 2 (nlon mt) /\ le_value (slice 8 2 bs) = nlon mt /\
    bs !! 10%nat = Some (scale mt) /\
    bs !! 11%nat = Some 0 /\
    F32.of_bits (le_value (slice 12 4 bs)) = F32.of_f64 (lat0 mt) /\
    F32.of_bits (le_value (slice 16 4 bs)) = F32.of_f64 (lon0 mt) /\
    F32.of_bits (le_value (slice 20 4 bs)) = F32.of_f64 (dlat mt) /\
    F32.of_bits (le_value (slice 24 4 bs)) = F32.of_f64 (dlon mt) /\
    forall m i j : nat,
      (m < 12)%nat -> (i < Z.to_nat (nlat mt))%nat -> (j < Z.to_nat (nlon mt))%nat ->
      is_Some (vget arr m i j) /\
      bs !! (28 + m * Z.to_nat (nlat mt) * Z.to_nat (nlon mt)
             + i * Z.to_nat (nlon mt) + j)%nat = vget arr m i j.
Proof.
  intros Hw Hs.
  destruct (write_bin_inv _ _ _ _ _ _ Hw) as (h & Hh & Hfs).
  destruct (header_inv _ _ Hh) as [Hww Hff].
  pose proof (layout_slices (nlat mt) (nlon mt) (scale mt)
                (F32.bits (F32.of_f64 (lat0 mt))) (F32.bits (F32.of_f64 (lon0 mt)))
                (F32.bits (F32.of_f64 (dlat mt))) (F32.bits (F32.of_f64 (dlon mt)))
                (tobytes arr)) as HL.
  cbv zeta in HL.
  pose proof (header_ok mt Hww Hff) as Hh'.
  match type of Hh' with _ = Ok ?x => set (hb := x) in * end.
  rewrite Hh' in Hh. injection Hh as <-. subst fs'. clear Hw.
  destruct Hww as (Hlat & Hlon & Hsc).
  destruct HL as (L0 & L4 & L6 & L8 & L10 & L11 & L12 & L16 & L20 & L24 & Ldrop & Llen).
  exists (hb ++ tobytes arr).
  split; [apply lookup_insert_eq|].
  split; [rewrite length_app, Llen, (length_tobytes 12 _ _ arr Hs); lia|].
  split; [exact L0|]. split; [exact L4|].
  split; [exact L6|]. split; [rewrite L6; apply le_value_le_bytes; cbn; lia|].
  split; [exact L8|]. split; [rewrite L8; apply le_value_le_bytes; cbn; lia|].
  split; [subst hb; cbn; rewrite Z.mod_small by lia; reflexivity|].
  split; [reflexivity|].
  split; [rewrite L12; apply read_packed_f32|].
  split; [rewrite L16; apply read_packed_f32|].
  split; [rewrite L20; apply read_packed_f32|].
  split; [rewrite L24; apply read_packed_f32|].
  intros m i j Hm Hi Hj.
  assert (Hget : tobytes arr !! ((m * Z.to_nat (nlat mt) + i) * Z.to_nat (nlon mt) + j)%nat
                 = vget arr m i j) by (eapply tobytes_lookup; eassumption).
  split.
  - rewrite <- Hget. apply lookup_lt_is_Some.
    rewrite (length_tobytes 12 _ _ arr Hs).
    apply Nat.lt_le_trans with ((m * Z.to_nat (nlat mt) + i + 1) * Z.to_nat (nlon mt))%nat;
      [lia|].
    apply Nat.mul_le_mono_r.
    apply Nat.le_trans with ((m + 1) * Z.to_nat (nlat mt))%nat; [lia|].
    apply Nat.mul_le_mono_r. lia.
  - rewrite <- Hget.
    replace (28 + m * Z.to_nat (nlat mt) * Z.to_nat (nlon mt) + i * Z.to_nat (nlon mt) + j)%nat
      with (28 + ((m * Z.to_nat (nlat mt) + i) * Z.to_nat (nlon mt) + j))%nat by lia.
    rewrite lookup_app_r by lia. f_equal. lia.
Qed.

Lemma zeros_shape a b c : has_shape a b c (zeros a b c).
Proof.
  split; [apply length_replicate|].
  apply Forall_replicate. split; [apply length_replicate|].
  apply Forall_replicate. apply length_replicate.
Qed.

Lemma zeros_bytes a b c : all_bytes (zeros a b c).
Proof. do 3 apply Forall_replicate. lia. Qed.

Lemma sample_volume_shape : has_shape 12 1 2 sample_volume.
Proof. split; [reflexivity|]. repeat constructor. Qed.

Lemma write_bin_layout_witness :
  exists bs,
    (write_bin sound OUTFILE sample_volume sample_meta ∅).2 !! OUTFILE = Some bs /\
    length bs = 52%nat /\
    bs !! 31%nat = Some 101.
Proof.
  destruct (write_bin_layout sound OUTFILE sample_volume sample_meta ∅
              (write_bin sound OUTFILE sample_volume sample_meta ∅).2
              eq_refl sample_volume_shape)
    as (bs & Hfile & Hlen & _ & _ & _ & _ & _ & _ & _ & _ & _ & _ & _ & _ & Hpay).
  exists bs. split; [exact Hfile|]. split; [exact Hlen|].
  exact (proj2 (Hpay 1%nat 0%nat 1%nat ltac:(cbn; lia) ltac:(cbn; lia) ltac:(cbn; lia))).
Defined.



(** C5 fails as worded: a step of 0.1 degree is not a binary32 value, and
    the file gives back 0.100000001490116... in its place. *)
Lemma roundtrip_loses_precision :
  ~ spec_roundtrip tenth_meta (zeros 12 1 1).
Proof.
  intros H.
  assert (Hd : written (zeros 12 1 1) tenth_meta ≫= decode
               = Some (meta_f32 tenth_meta, zeros 12 1 1)) by (vm_compute; reflexivity).
  rewrite H in Hd.
  - apply (f_equal (fun r => dlat <$> (fst <$> r))) in Hd. vm_compute in Hd. discriminate.
  - unfold within_widths. cbn. lia.
  - apply zeros_shape.
  - apply zeros_bytes.
Qed.

Lemma meta_f32_exact mt : floats_exact mt -> meta_f32 mt = mt.
Proof.
  destruct mt as [a b x1 x2 x3 x4 sc]. unfold floats_exact, meta_f32. cbn.
  intros (-> & -> & -> & ->). reflexivity.
Qed.

Lemma decode_header_payload mt arr :
  within_widths mt ->
  has_shape 12 (Z.to_nat (nlat mt)) (Z.to_nat (nlon mt)) arr ->
  decode
    ((magic ++ le_bytes 2 2 ++ le_bytes 2 (nlat mt) ++ le_bytes 2 (nlon mt)
      ++ le_bytes 1 (scale mt) ++ le_bytes 1 0
      ++ le_bytes 4 (F32.bits (F32.of_f64 (lat0 mt)))
      ++ le_bytes 4 (F32.bits (F32.of_f64 (lon0 mt)))
      ++ le_bytes 4 (F32.bits (F32.of_f64 (dlat mt)))
      ++ le_bytes 4 (F32.bits (F32.of_f64 (dlon mt)))) ++ tobytes arr)
  = Some (meta_f32 mt, arr).
Proof.
  intros (Hlat & Hlon & Hsc) Hs.
  pose proof (layout_slices (nlat mt) (nlon mt) (scale mt)
                (F32.bits (F32.of_f64 (lat0 mt))) (F32.bits (F32.of_f64 (lon0 mt)))
                (F32.bits (F32.of_f64 (dlat mt))) (F32.bits (F32.of_f64 (dlon mt)))
                (tobytes arr)) as HL.
  cbv zeta in HL.
  match type of HL with slice 0 4 (?x ++ _) = _ /\ _ => set (hb := x) in * end.
  destruct HL as (L0 & L4 & L6 & L8 & L10 & L11 & L12 & L16 & L20 & L24 & Ldrop & Llen).
  assert (Elat : le_value (le_bytes 2 (nlat mt)) = nlat mt)
    by (apply le_value_le_bytes; cbn; lia).
  assert (Elon : le_value (le_bytes 2 (nlon mt)) = nlon mt)
    by (apply le_value_le_bytes; cbn; lia).
  assert (Esc : le_value (le_bytes 1 (scale mt)) = scale mt)
    by (apply le_value_le_bytes; cbn; lia).
  unfold decode, read_f32.
  rewrite L0, L4, L6, L8, L10, L11, L12, L16, L20, L24, Ldrop, Elat, Elon, Esc.
  rewrite !read_packed_f32.
  rewrite decide_True.
  - rewrite (reshape3_tobytes 12 _ _ arr Hs). reflexivity.
  - repeat split; try reflexivity.
    rewrite (length_tobytes 12 _ _ arr Hs). lia.
Qed.

(** C5, as the code has it.  For metadata within the integer widths, whose
    float fields do not overflow binary32, and a volume of shape
    [(12, nlat, nlon)]: decoding the written file gives back [nlat], [nlon],
    [scale] and the volume exactly, and each of [lat0], [lon0], [dlat],
    [dlon] rounded to binary32; the metadata is given back exactly when
    those four fields are binary32 values. *)
Theorem decode_written mt arr :
  within_widths mt -> floats_fit mt ->
  has_shape 12 (Z.to_nat (nlat mt)) (Z.to_nat (nlon mt)) arr ->
  written arr mt ≫= decode = Some (meta_f32 mt, arr) /\
  (floats_exact mt -> written arr mt ≫= decode = Some (mt, arr)).
Proof.
  intros Hw Hf Hs.
  assert (H : written arr mt ≫= decode = Some (meta_f32 mt, arr)).
  { rewrite (written_ok _ _ _ (header_ok mt Hw Hf)). cbn [mbind option_bind].
    apply decode_header_payload; assumption. }
  split; [exact H|].
  intros He. rewrite H, (meta_f32_exact mt He). reflexivity.
Qed.

Lemma decode_written_witness :
  written sample_volume sample_meta ≫= decode = Some (sample_meta, sample_volume).
Proof.
  apply (decode_written sample_meta sample_volume).
  - unfold within_widths. cbn. lia.
  - repeat split; vm_compute; reflexivity.
  - exact sample_volume_shape.
  - repeat split; vm_compute; reflexivity.
Defined.

(** ** Grid assembler *)

Lemma astype_uint8_byte cast x : 0 <= astype_uint8 cast x < 256.
Proof.
  unfold astype_uint8.
  destruct (is_finite x); cbn [andb]; [|apply Z.mod_pos_bound; lia].
  destruct (Z.leb_spec 0 (trunc x)); cbn [andb]; [|apply Z.mod_pos_bound; lia].
  destruct (Z.leb_spec (trunc x) 255); [lia|apply Z.mod_pos_bound; lia].
Qed.

Lemma quantize_byte cast scale x : 0 <= quantize cast scale x < 256.
Proof. apply astype_uint8_byte. Qed.

Lemma vget_put_eq a b c arr (i j m : nat) v :
  has_shape a b c arr -> length v = a -> (i < b)%nat -> (j < c)%nat -> (m < a)%nat ->
  vget (put_column arr i j v) m i j = v !! m.
Proof.
  intros [Ha Hs] Hv Hi Hj Hm. unfold vget, put_column, set_cell.
  rewrite list_lookup_imap.
  destruct (lookup_lt_is_Some_2 arr m ltac:(lia)) as [plane Hp]. rewrite Hp. cbn.
  destruct (Forall_lookup_1 _ _ _ _ Hs Hp) as [Hb Hc].
  rewrite list_lookup_alter_eq.
  destruct (lookup_lt_is_Some_2 plane i ltac:(lia)) as [row Hr]. rewrite Hr. cbn.
  rewrite list_lookup_insert_eq
    by (rewrite (Forall_lookup_1 _ _ _ _ Hc Hr); exact Hj).
  destruct (lookup_lt_is_Some_2 v m ltac:(lia)) as [x Hx]. rewrite Hx. reflexivity.
Qed.

Lemma vget_put_ne arr (i j i' j' m : nat) v :
  i' <> i \/ j' <> j ->
  vget (put_column arr i j v) m i' j' = vget arr m i' j'.
Proof.
  intros Hne. unfold vget, put_column, set_cell.
  rewrite list_lookup_imap. destruct (arr !! m) as [plane|]; [|reflexivity]. cbn.
  destruct (decide (i' = i)) as [->|Hi].
  - rewrite list_lookup_alter_eq. destruct (plane !! i) as [row|]; [|reflexivity]. cbn.
    apply list_lookup_insert_ne. destruct Hne; congruence.
  - rewrite list_lookup_alter_ne by congruence. reflexivity.
Qed.

Lemma put_column_shape a b c arr i j v :
  has_shape a b c arr -> has_shape a b c (put_column arr i j v).
Proof.
  intros [Ha Hs]. split; [unfold put_column; rewrite length_imap; exact Ha|].
  apply Forall_lookup_2. intros m plane' Hm. unfold put_column in Hm.
  rewrite list_lookup_imap in Hm.
  destruct (arr !! m) as [plane|] eqn:Hp; [|discriminate]. cbn in Hm.
  injection Hm as <-. destruct (Forall_lookup_1 _ _ _ _ Hs Hp) as [Hb Hc].
  unfold set_cell. split; [rewrite length_alter; exact Hb|].
  apply Forall_alter; [exact Hc|]. intros row _ Hrow. rewrite length_insert.
  exact Hrow.
Qed.

Lemma put_column_bytes arr i j v :
  all_bytes arr -> Forall (fun x => 0 <= x < 256) v ->
  all_bytes (put_column arr i j v).
Proof.
  intros Harr Hv. unfold all_bytes, put_column.
  apply Forall_lookup_2. intros m plane' Hm. rewrite list_lookup_imap in Hm.
  destruct (arr !! m) as [plane|] eqn:Hp; [|discriminate]. cbn in Hm.
  injection Hm as <-. pose proof (Forall_lookup_1 _ _ _ _ Harr Hp) as Hplane.
  unfold set_cell. apply Forall_alter; [exact Hplane|].
  intros row _ Hrow. apply Forall_insert; [exact Hrow|].
  destruct (v !! m) as [x|] eqn:Hx; cbn; [|lia].
  exact (Forall_lookup_1 _ _ _ _ Hv Hx).
Qed.

Section Filling.
Context {W : Type}.
Variable provider : call -> W -> result (list spec_float) * W.
Variable cast_undefined : spec_float -> Z.
Variable cfg : config.
(** The provider answers a coordinate pair with [series lat lon], in
    whatever state it is called. *)
Variable series : spec_float -> spec_float -> list spec_float.
Hypothesis answers : forall lat lon s, exists s',
  lt_lookup provider months lat lon s = (Ok (series lat lon), s').
Hypothesis twelve : forall lat lon, length (series lat lon) = 12%nat.
(** The scale converts to a double. *)
Hypothesis fits : is_inf (F64.of_Z (cfg_scale cfg)) = false.

Lemma stored_bytes lat lon :
  Forall (fun x => 0 <= x < 256)
         (quantize cast_undefined (cfg_scale cfg) <$> series lat lon).
Proof using Type.
  apply Forall_fmap, Forall_forall. intros x _. apply quantize_byte.
Qed.

(** One latitude row: the inner loop over the longitudes. *)
Lemma fill_row (b c i : nat) lat (lons : list spec_float) :
  (i < b)%nat ->
  forall (j0 : nat) (out : volume) (s : env (W:=W)),
  (j0 + length lons <= c)%nat ->
  has_shape 12 b c out ->
  exists out' s',
    for_enumerate (fun j lon => sample_cell provider cast_undefined cfg b c i j lat lon)
      j0 lons out s = (Ok out', s') /\
    has_shape 12 b c out' /\
    (all_bytes out -> all_bytes out') /\
    (forall (m k : nat) lon, (m < 12)%nat -> lons !! k = Some lon ->
       vget out' m i (j0 + k) = (quantize cast_undefined (cfg_scale cfg) <$> series lat lon) !! m) /\
    (forall (m i' j' : nat), i' <> i \/ (j' < j0)%nat \/ (j0 + length lons <= j')%nat ->
       vget out' m i' j' = vget out m i' j').
Proof using answers twelve fits.
  intros Hi. induction lons as [|lon rest IH]; intros j0 out s Hj Hs.
  - exists out, s.
    split; [reflexivity|]. split; [exact Hs|]. split; [auto|]. split; [|auto].
    intros m k lon _ Hk. discriminate.
  - cbn [length] in Hj.
    destruct (answers lat lon s) as [s1 Hl].
    assert (Hcell : sample_cell provider cast_undefined cfg b c i j0 lat lon out s
                    = (Ok (put_column out i j0 ((quantize cast_undefined (cfg_scale cfg) <$> series lat lon))), s1)).
    { apply sample_cell_stores; [exact Hl|exact fits| |exact Hi|lia].
      rewrite twelve. destruct Hs as [-> _]. reflexivity. }
    destruct (IH (S j0) (put_column out i j0 ((quantize cast_undefined (cfg_scale cfg) <$> series lat lon))) s1 ltac:(lia)
                 (put_column_shape _ _ _ _ _ _ _ Hs))
      as (out' & s' & Hrun & Hs' & Hb' & Hin & Hout).
    exists out', s'. split; [|split; [exact Hs'|split; [|split]]].
    + cbn [for_enumerate]. unfold mbind, M_bind. rewrite Hcell. exact Hrun.
    + intros Hb. apply Hb'. apply put_column_bytes; [exact Hb|apply stored_bytes].
    + intros m [|k] lon' Hm Hk.
      * injection Hk as <-. rewrite Nat.add_0_r.
        rewrite Hout by lia.
        apply (vget_put_eq 12 b c); [exact Hs| |exact Hi|lia|exact Hm].
        rewrite length_fmap. apply twelve.
      * replace (j0 + S k)%nat with (S j0 + k)%nat by lia.
        apply Hin; assumption.
    + intros m i' j' Hne. cbn [length] in Hne.
      rewrite Hout by lia. apply vget_put_ne. lia.
Qed.

(** All rows: the outer loop over the latitudes. *)
Lemma fill_rows (b c : nat) (lons : list spec_float) :
  length lons = c ->
  forall (lats : list spec_float) (i0 : nat) (out : volume) (s : env (W:=W)),
  (i0 + length lats <= b)%nat ->
  has_shape 12 b c out ->
  exists out' s',
    for_enumerate
      (fun i lat =>
         for_enumerate (fun j lon => sample_cell provider cast_undefined cfg b c i j lat lon)
           0 lons)
      i0 lats out s = (Ok out', s') /\
    has_shape 12 b c out' /\
    (all_bytes out -> all_bytes out') /\
    (forall (m k j : nat) lat lon, (m < 12)%nat ->
       lats !! k = Some lat -> lons !! j = Some lon ->
       vget out' m (i0 + k) j = (quantize cast_undefined (cfg_scale cfg) <$> series lat lon) !! m) /\
    (forall (m i' j' : nat), (i' < i0)%nat \/ (i0 + length lats <= i')%nat ->
       vget out' m i' j' = vget out m i' j').
Proof using answers twelve fits.
  intros Hc. induction lats as [|lat rest IH]; intros i0 out s Hi Hs.
  - exists out, s.
    split; [reflexivity|]. split; [exact Hs|]. split; [auto|]. split; [|auto].
    intros m k j lat lon _ Hk. discriminate.
  - cbn [length] in Hi.
    destruct (fill_row b c i0 lat lons ltac:(lia) 0%nat out s ltac:(lia) Hs)
      as (out1 & s1 & Hrow & Hs1 & Hb1 & Hin1 & Hout1).
    destruct (IH (S i0) out1 s1 ltac:(lia) Hs1)
      as (out' & s' & Hrun & Hs' & Hb' & Hin & Hout).
    exists out', s'. split; [|split; [exact Hs'|split; [|split]]].
    + cbn [for_enumerate]. unfold mbind, M_bind. rewrite Hrow. exact Hrun.
    + intros Hb. auto.
    + intros m [|k] j lat' lon Hm Hk Hj.
      * injection Hk as <-. rewrite Nat.add_0_r.
        rewrite Hout by lia. apply (Hin1 m j lon Hm Hj).
      * replace (i0 + S k)%nat with (S i0 + k)%nat by lia.
        eapply Hin; eassumption.
    + intros m i' j' Hne. cbn [length] in Hne.
      rewrite Hout by lia. apply Hout1. lia.
Qed.

(** The assembled grid: shape, bytes, metadata and every cell. *)
Lemma build_grid_cells lats n_lat lons n_lon (s : env (W:=W)) :
  centers (lat_min cfg) (lat_max cfg) (cfg_dlat cfg) = Ok (lats, n_lat) ->
  centers (lon_min cfg) (lon_max cfg) (cfg_dlon cfg) = Ok (lons, n_lon) ->
  1 <= n_lat -> 1 <= n_lon ->
  exists out la lo s',
    build_grid_with provider cast_undefined cfg s
      = (Ok (out, Meta n_lat n_lon la lo (cfg_dlat cfg) (cfg_dlon cfg) (cfg_scale cfg)), s') /\
    head lats = Some la /\ head lons = Some lo /\
    has_shape 12 (Z.to_nat n_lat) (Z.to_nat n_lon) out /\
    all_bytes out /\
    forall (m i j : nat) lat lon, (m < 12)%nat ->
      lats !! i = Some lat -> lons !! j = Some lon ->
      vget out m i j = (quantize cast_undefined (cfg_scale cfg) <$> series lat lon) !! m.
Proof using answers twelve fits.
  intros Hlat Hlon Hn1 Hn2.
  destruct (centers_inv _ _ _ _ _ Hlat) as [_ Hl1].
  destruct (centers_inv _ _ _ _ _ Hlon) as [_ Hl2].
  destruct (linspace_length _ _ _ _ Hl1) as [_ Hlen1].
  destruct (linspace_length _ _ _ _ Hl2) as [_ Hlen2].
  destruct (fill_rows (Z.to_nat n_lat) (Z.to_nat n_lon) lons Hlen2 lats 0%nat
              (zeros 12 (Z.to_nat n_lat) (Z.to_nat n_lon)) s ltac:(lia)
              (zeros_shape _ _ _))
    as (out & s' & Hrun & Hs & Hb & Hin & _).
  destruct lats as [|la lats']; [cbn in Hlen1; lia|].
  destruct lons as [|lo lons']; [cbn in Hlen2; lia|].
  exists out, la, lo, s'. split; [|split; [reflexivity|split; [reflexivity|]]].
  - unfold build_grid_with, fill_grid, mbind, M_bind, lift. rewrite Hlat, Hlon, Hrun. reflexivity.
  - split; [exact Hs|]. split; [apply Hb, zeros_bytes|].
    intros m i j lat lon Hm Hi Hj. exact (Hin m i j lat lon Hm Hi Hj).
Qed.
End Filling.

(** ** The whole run *)

Lemma shipped_axes :
  exists lats lons,
    centers (lat_min CONFIG) (lat_max CONFIG) (cfg_dlat CONFIG) = Ok (lats, 130) /\
    centers (lon_min CONFIG) (lon_max CONFIG) (cfg_dlon CONFIG) = Ok (lons, 360) /\
    head lats = Some (F64.of_decimal (-645) 1) /\
    head lons = Some (F64.of_decimal (-1795) 1).
Proof.
  destruct (centers (lat_min CONFIG) (lat_max CONFIG) (cfg_dlat CONFIG))
    as [[lats n1]|e1] eqn:E1; vm_compute in E1; [|discriminate].
  destruct (centers (lon_min CONFIG) (lon_max CONFIG) (cfg_dlon CONFIG))
    as [[lons n2]|e2] eqn:E2; vm_compute in E2; [|discriminate].
  injection E1 as <- <-. injection E2 as <- <-.
  do 2 eexists. repeat split; vm_compute; reflexivity.
Qed.


(* ===================================================================== *)
(** * Further properties of the run *)
(* ===================================================================== *)

(** ** Loops *)

Section Loops.
Context {W : Type} {A St : Type}.
Variable body : nat -> A -> St -> M (W:=W) St.

Lemma for_enumerate_app xs ys i0 acc s :
  for_enumerate body i0 (xs ++ ys) acc s =
  match for_enumerate body i0 xs acc s with
  | (Ok acc', s') => for_enumerate body (i0 + length xs) ys acc' s'
  | (Raise e, s') => (Raise e, s')
  end.
Proof using Type.
  revert i0 acc s. induction xs as [|x xs IH]; intros i0 acc s.
  - cbn. rewrite Nat.add_0_r. reflexivity.
  - cbn [app for_enumerate length]. unfold mbind, M_bind.
    destruct (body i0 x acc s) as [[acc1|e] s1]; [|reflexivity].
    rewrite IH. replace (S i0 + length xs)%nat with (i0 + S (length xs))%nat by lia.
    reflexivity.
Qed.

(** A loop whose body succeeds at every step, and keeps an invariant of the
    index, the accumulator and the state, runs to its end. *)
Lemma for_enumerate_total (Inv : nat -> St -> env (W:=W) -> Prop) xs :
  forall i0 acc s,
  (forall k x acc s, xs !! k = Some x -> Inv (i0 + k)%nat acc s ->
     exists acc' s', body (i0 + k)%nat x acc s = (Ok acc', s') /\
                     Inv (S (i0 + k)) acc' s') ->
  Inv i0 acc s ->
  exists acc' s',
    for_enumerate body i0 xs acc s = (Ok acc', s') /\
    Inv (i0 + length xs)%nat acc' s'.
Proof using Type.
  induction xs as [|x xs IH]; intros i0 acc s Hstep H0.
  - exists acc, s. split; [reflexivity|]. cbn. rewrite Nat.add_0_r. exact H0.
  - destruct (Hstep 0%nat x acc s eq_refl) as (acc1 & s1 & Hb & H1).
    { rewrite Nat.add_0_r. exact H0. }
    rewrite Nat.add_0_r in Hb, H1.
    destruct (IH (S i0) acc1 s1) as (acc' & s' & Hrun & H').
    { intros k y acc2 s2 Hk HI.
      replace (S i0 + k)%nat with (i0 + S k)%nat in * by lia.
      apply (Hstep (S k) y acc2 s2 Hk HI). }
    { exact H1. }
    exists acc', s'. split.
    + cbn [for_enumerate]. unfold mbind, M_bind. rewrite Hb. exact Hrun.
    + cbn [length]. replace (i0 + S (length xs))%nat with (S i0 + length xs)%nat by lia.
      exact H'.
Qed.

(** A loop that ran to its end kept every invariant its successful steps
    keep. *)
Lemma for_enumerate_partial (Inv : nat -> St -> env (W:=W) -> Prop) xs :
  forall i0 acc s acc' s',
  (forall k x acc s acc' s', xs !! k = Some x -> Inv (i0 + k)%nat acc s ->
     body (i0 + k)%nat x acc s = (Ok acc', s') -> Inv (S (i0 + k)) acc' s') ->
  Inv i0 acc s ->
  for_enumerate body i0 xs acc s = (Ok acc', s') ->
  Inv (i0 + length xs)%nat acc' s'.
Proof using Type.
  induction xs as [|x xs IH]; intros i0 acc s acc' s' Hstep H0 Hrun.
  - cbn in Hrun. injection Hrun as <- <-. cbn. rewrite Nat.add_0_r. exact H0.
  - cbn [for_enumerate] in Hrun. unfold mbind, M_bind in Hrun.
    destruct (body i0 x acc s) as [[acc1|e] s1] eqn:Hb; [|discriminate].
    cbn [length]. replace (i0 + S (length xs))%nat with (S i0 + length xs)%nat by lia.
    apply (IH (S i0) acc1 s1 acc' s'); [| |exact Hrun].
    + intros k y acc2 s2 acc3 s3 Hk HI Hy.
      replace (S i0 + k)%nat with (i0 + S k)%nat in * by lia.
      exact (Hstep (S k) y acc2 s2 acc3 s3 Hk HI Hy).
    + specialize (Hstep 0%nat x acc s acc1 s1 eq_refl).
      rewrite Nat.add_0_r in Hstep. exact (Hstep H0 Hb).
Qed.

(** An exception raised by the body ends the loop: nothing after the
    failing element is run. *)
Lemma for_enumerate_raise pre x post i0 acc s acc1 s1 e s' :
  for_enumerate body i0 pre acc s = (Ok acc1, s1) ->
  body (i0 + length pre)%nat x acc1 s1 = (Raise e, s') ->
  for_enumerate body i0 (pre ++ x :: post) acc s = (Raise e, s').
Proof using Type.
  intros Hrun Hb. rewrite for_enumerate_app, Hrun. cbn [for_enumerate].
  unfold mbind, M_bind. rewrite Hb. reflexivity.
Qed.
End Loops.

(** ** Cells and the call log *)

(** Broadcasting one value is assigning a column of equal values. *)
Lemma broadcast_put_column (arr : volume) i j x :
  (fun plane => set_cell plane i j x) <$> arr
  = put_column arr i j (replicate (length arr) x).
Proof.
  unfold put_column. rewrite <- (imap_const (fun plane => set_cell plane i j x)).
  apply imap_ext. intros m plane Hm. unfold const.
  rewrite lookup_replicate_2 by (eapply lookup_lt_Some; exact Hm). reflexivity.
Qed.

Lemma cell_calls_snoc lats lat lons :
  cell_calls (lats ++ [lat]) lons = cell_calls lats lons ++ row_calls lat lons.
Proof.
  unfold cell_calls. rewrite bind_app. cbn. rewrite app_nil_r. reflexivity.
Qed.

Lemma length_cell_calls lats lons :
  length (cell_calls lats lons) = (length lats * length lons)%nat.
Proof.
  unfold cell_calls. induction lats as [|lat lats IH]; [reflexivity|].
  cbn. rewrite length_app, IH. unfold row_calls. rewrite length_fmap. reflexivity.
Qed.

(** Whatever its outcome, a lookup adds exactly one keyword call to the log. *)
Lemma lt_lookup_log {W : Type} (provider : call -> W -> result (list spec_float) * W)
    ms lat lon s r s' :
  lt_lookup provider ms lat lon s = (r, s') ->
  keyword_calls (calls s') = Call Keyword ms lat lon :: keyword_calls (calls s).
Proof.
  unfold lt_lookup, invoke. cbn [world calls].
  destruct (provider (Call Keyword ms lat lon) (world s)) as [[tl|e] w] eqn:E1.
  - intros H. injection H as <- <-. reflexivity.
  - destruct e; try (intros H; injection H as <- <-; reflexivity).
    cbn [world calls].
    destruct (provider (Call Positional ms lat lon) w) as [r2 w2].
    intros H. injection H as <- <-. reflexivity.
Qed.

(** A cell that was stored: the lookup succeeded, the indices were in range
    and a column of bytes was assigned. *)
Lemma sample_cell_inv {W : Type} (provider : call -> W -> result (list spec_float) * W)
    cast cfg (b c i j : nat) lat lon out s out' s' :
  sample_cell provider cast cfg b c i j lat lon out s = (Ok out', s') ->
  exists tl v,
    lt_lookup provider months lat lon s = (Ok tl, s') /\
    (i < b)%nat /\ (j < c)%nat /\
    out' = put_column out i j v /\
    Forall (fun x => 0 <= x < 256) v.
Proof.
  unfold sample_cell, mbind, M_bind.
  destruct (lt_lookup provider months lat lon s) as [[tl|e] s1] eqn:Hl; [|discriminate].
  unfold lift, float_of_int.
  destruct (is_inf (F64.of_Z (cfg_scale cfg))); [discriminate|]. unfold assign_column.
  destruct (Nat.ltb_spec i b) as [Hi|Hi]; [|discriminate].
  destruct (Nat.ltb_spec j c) as [Hj|Hj]; [|discriminate]. cbn [andb negb].
  assert (Hq : Forall (fun x => 0 <= x < 256) (quantize cast (cfg_scale cfg) <$> tl)).
  { apply Forall_fmap, Forall_forall. intros x _. apply quantize_byte. }
  destruct (length (quantize cast (cfg_scale cfg) <$> tl) =? length out)%nat.
  - intros H. injection H as <- <-. exists tl, (quantize cast (cfg_scale cfg) <$> tl).
    repeat split; assumption.
  - destruct tl as [|x [|y tl]]; try discriminate. cbn [fmap list_fmap].
    intros H. injection H as <- <-.
    exists [x], (replicate (length out) (quantize cast (cfg_scale cfg) x)).
    split; [reflexivity|]. split; [assumption|]. split; [assumption|].
    split; [apply broadcast_put_column|].
    apply Forall_replicate, quantize_byte.
Qed.

Section Runs.
Context {W : Type}.
Variable provider : call -> W -> result (list spec_float) * W.
Variable cast_undefined : spec_float -> Z.
Variable cfg : config.

(** What a row that ran to its end leaves: the shape, bytes, and one keyword
    call per longitude, in order. *)
Lemma row_partial (b c i : nat) lat lons out s out' s' :
  for_enumerate (fun j lon => sample_cell provider cast_undefined cfg b c i j lat lon)
    0 lons out s = (Ok out', s') ->
  has_shape 12 b c out -> all_bytes out ->
  has_shape 12 b c out' /\ all_bytes out' /\
  keyword_calls (calls s') = reverse (row_calls lat lons) ++ keyword_calls (calls s).
Proof using Type.
  intros Hrun Hs Hb.
  pose (Inv := fun (j : nat) (o : volume) (st : env (W:=W)) =>
    has_shape 12 b c o /\ all_bytes o /\
    keyword_calls (calls st)
    = reverse (row_calls lat (take j lons)) ++ keyword_calls (calls s)).
  assert (HI : Inv (0 + length lons)%nat out' s').
  { apply (fun H1 H2 => for_enumerate_partial _ Inv lons 0%nat out s out' s' H1 H2 Hrun).
    - intros k lon o st o' st' Hk (Hs1 & Hb1 & Hc1) Hcell. cbn [Nat.add] in *.
      destruct (sample_cell_inv _ _ _ _ _ _ _ _ _ _ _ _ _ Hcell)
        as (tl & v & Hl & _ & _ & -> & Hv).
      split; [apply put_column_shape; exact Hs1|].
      split; [apply put_column_bytes; assumption|].
      rewrite (lt_lookup_log _ _ _ _ _ _ _ Hl), Hc1.
      rewrite (take_S_r _ _ _ Hk). unfold row_calls. rewrite fmap_app, reverse_app.
      reflexivity.
    - split; [exact Hs|]. split; [exact Hb|]. reflexivity. }
  cbn [Nat.add] in HI. destruct HI as (Hs' & Hb' & Hc'). rewrite firstn_all in Hc'.
  auto.
Qed.

Lemma rows_partial (b c : nat) lats lons out s out' s' :
  fill_grid provider cast_undefined cfg b c lats lons out s = (Ok out', s') ->
  has_shape 12 b c out -> all_bytes out ->
  has_shape 12 b c out' /\ all_bytes out' /\
  keyword_calls (calls s') = reverse (cell_calls lats lons) ++ keyword_calls (calls s).
Proof using Type.
  intros Hrun Hs Hb. unfold fill_grid in Hrun.
  pose (Inv := fun (i : nat) (o : volume) (st : env (W:=W)) =>
    has_shape 12 b c o /\ all_bytes o /\
    keyword_calls (calls st)
    = reverse (cell_calls (take i lats) lons) ++ keyword_calls (calls s)).
  assert (HI : Inv (0 + length lats)%nat out' s').
  { apply (fun H1 H2 => for_enumerate_partial _ Inv lats 0%nat out s out' s' H1 H2 Hrun).
    - intros k lat o st o' st' Hk (Hs1 & Hb1 & Hc1) Hrow. cbn [Nat.add] in *.
      destruct (row_partial _ _ _ _ _ _ _ _ _ Hrow Hs1 Hb1) as (Hs2 & Hb2 & Hc2).
      split; [exact Hs2|]. split; [exact Hb2|].
      rewrite Hc2, Hc1, (take_S_r _ _ _ Hk), cell_calls_snoc, reverse_app, app_assoc.
      reflexivity.
    - split; [exact Hs|]. split; [exact Hb|]. reflexivity. }
  cbn [Nat.add] in HI. destruct HI as (Hs' & Hb' & Hc'). rewrite firstn_all in Hc'.
  auto.
Qed.

(** The steps of a [build_grid] that returned. *)
Lemma build_grid_inv s out mt s' :
  build_grid_with provider cast_undefined cfg s = (Ok (out, mt), s') ->
  exists lats lons,
    centers (lat_min cfg) (lat_max cfg) (cfg_dlat cfg) = Ok (lats, nlat mt) /\
    centers (lon_min cfg) (lon_max cfg) (cfg_dlon cfg) = Ok (lons, nlon mt) /\
    fill_grid provider cast_undefined cfg (Z.to_nat (nlat mt)) (Z.to_nat (nlon mt))
      lats lons (zeros 12 (Z.to_nat (nlat mt)) (Z.to_nat (nlon mt))) s = (Ok out, s') /\
    head lats = Some (lat0 mt) /\ head lons = Some (lon0 mt) /\
    dlat mt = cfg_dlat cfg /\ dlon mt = cfg_dlon cfg /\ scale mt = cfg_scale cfg.
Proof using Type.
  unfold build_grid_with, mbind, M_bind, lift.
  destruct (centers (lat_min cfg) (lat_max cfg) (cfg_dlat cfg)) as [[lats n1]|e1];
    [|discriminate].
  destruct (centers (lon_min cfg) (lon_max cfg) (cfg_dlon cfg)) as [[lons n2]|e2];
    [|discriminate].
  destruct (fill_grid _ _ _ _ _ lats lons _ s) as [[o|e] s1] eqn:Hrun; [|discriminate].
  unfold py_index. destruct lats as [|la lats]; [discriminate|].
  destruct lons as [|lo lons]; [discriminate|]. cbn [lookup list_lookup].
  intros H. injection H as <- <- <-. cbn [nlat nlon lat0 lon0 dlat dlon scale].
  exists (la :: lats), (lo :: lons). repeat split; try reflexivity. exact Hrun.
Qed.
End Runs.

(** The metadata and the shape of every grid the shipped configuration
    yields. *)
Lemma shipped_meta {W : Type} (provider : call -> W -> result (list spec_float) * W)
    (cast_undefined : spec_float -> Z) (s : env (W:=W)) grid mt s' :
  build_grid provider cast_undefined s = (Ok (grid, mt), s') ->
  mt = Meta 130 360 (F64.of_decimal (-645) 1) (F64.of_decimal (-1795) 1) DLAT DLON SCALE /\
  has_shape 12 130 360 grid /\ all_bytes grid.
Proof.
  intros Hb. unfold build_grid in Hb.
  destruct (build_grid_inv _ _ _ _ _ _ _ Hb)
    as (lats & lons & Hlat & Hlon & Hloop & Hla & Hlo & Hd1 & Hd2 & Hsc).
  destruct shipped_axes as (lats' & lons' & Hlat' & Hlon' & Hla' & Hlo').
  rewrite Hlat' in Hlat. rewrite Hlon' in Hlon.
  injection Hlat as -> Hn1. injection Hlon as -> Hn2.
  rewrite Hla' in Hla. rewrite Hlo' in Hlo. injection Hla as Hla. injection Hlo as Hlo.
  destruct (rows_partial _ _ _ _ _ _ _ _ _ _ _ Hloop (zeros_shape _ _ _) (zeros_bytes _ _ _))
    as (Hs & Hby & _).
  rewrite <- Hn1, <- Hn2 in Hs.
  split; [|split; [exact Hs|exact Hby]].
  destruct mt as [n1 n2 la lo d1 d2 sc]. cbn [nlat nlon lat0 lon0 dlat dlon scale] in *.
  subst. reflexivity.
Qed.

(** ** What [build_grid] returns, whatever the provider *)

(** X12.  Whatever the provider does and whatever the configuration is, a
    grid that [build_grid] returns is well formed: both counts are at least
    1, the array has shape (12, nlat, nlon) and holds bytes, [nlat] and
    [nlon] are the counts of [centers], [lat0] and [lon0] are the first
    centres, and the steps and the scale are those of the configuration. *)
Theorem build_grid_result_well_formed {W : Type}
    (provider : call -> W -> result (list spec_float) * W)
    (cast_undefined : spec_float -> Z) (cfg : config) s out mt s' :
  build_grid_with provider cast_undefined cfg s = (Ok (out, mt), s') ->
  1 <= nlat mt /\ 1 <= nlon mt /\
  has_shape 12 (Z.to_nat (nlat mt)) (Z.to_nat (nlon mt)) out /\
  all_bytes out /\
  (exists lats lons,
     centers (lat_min cfg) (lat_max cfg) (cfg_dlat cfg) = Ok (lats, nlat mt) /\
     centers (lon_min cfg) (lon_max cfg) (cfg_dlon cfg) = Ok (lons, nlon mt) /\
     head lats = Some (lat0 mt) /\ head lons = Some (lon0 mt)) /\
  dlat mt = cfg_dlat cfg /\ dlon mt = cfg_dlon cfg /\ scale mt = cfg_scale cfg.
Proof.
  intros Hrun.
  destruct (build_grid_inv _ _ _ _ _ _ _ Hrun)
    as (lats & lons & Hlat & Hlon & Hloop & Hla & Hlo & Hd1 & Hd2 & Hsc).
  destruct (centers_inv _ _ _ _ _ Hlat) as [_ Hl1].
  destruct (centers_inv _ _ _ _ _ Hlon) as [_ Hl2].
  destruct (linspace_length _ _ _ _ Hl1) as [_ Hlen1].
  destruct (linspace_length _ _ _ _ Hl2) as [_ Hlen2].
  destruct (rows_partial _ _ _ _ _ _ _ _ _ _ _ Hloop (zeros_shape _ _ _) (zeros_bytes _ _ _))
    as (Hs & Hb & _).
  split; [destruct lats; [discriminate|]; cbn [length] in Hlen1; lia|].
  split; [destruct lons; [discriminate|]; cbn [length] in Hlen2; lia|].
  split; [exact Hs|]. split; [exact Hb|].
  split; [exists lats, lons; auto|]. auto.
Qed.

Lemma build_grid_result_well_formed_witness :
  exists out mt s',
    build_grid_with (flat_provider (F64.of_decimal 307 2)) cast_zero small_config
      (Env () []) = (Ok (out, mt), s') /\
    nlat mt = 2 /\ nlon mt = 3 /\ has_shape 12 2 3 out /\ all_bytes out.
Proof.
  destruct (build_grid_with (flat_provider (F64.of_decimal 307 2)) cast_zero small_config
              (Env () [])) as [[[out mt]|e] s'] eqn:E.
  - pose proof (build_grid_result_well_formed _ _ _ _ _ _ _ E)
      as (_ & _ & Hs & Hb & _).
    vm_compute in E. injection E as <- <- <-.
    do 3 eexists. split; [reflexivity|]. split; [reflexivity|]. split; [reflexivity|].
    split; [exact Hs|exact Hb].
  - vm_compute in E. discriminate.
Defined.

(** X4.  Whatever the provider does, a [build_grid] that returns has looked
    up every cell exactly once, latitude row by latitude row and, within a
    row, longitude by longitude: the keyword calls it added to the log are,
    oldest first, those of the cells in that order, each with the twelve
    months, and there are [nlat * nlon] of them. *)
Theorem build_grid_samples_in_order {W : Type}
    (provider : call -> W -> result (list spec_float) * W)
    (cast_undefined : spec_float -> Z) (cfg : config) s out mt s' :
  build_grid_with provider cast_undefined cfg s = (Ok (out, mt), s') ->
  exists lats lons,
    centers (lat_min cfg) (lat_max cfg) (cfg_dlat cfg) = Ok (lats, nlat mt) /\
    centers (lon_min cfg) (lon_max cfg) (cfg_dlon cfg) = Ok (lons, nlon mt) /\
    keyword_calls (calls s')
    = reverse (cell_calls lats lons) ++ keyword_calls (calls s) /\
    length (cell_calls lats lons) = Z.to_nat (nlat mt * nlon mt).
Proof.
  intros Hrun.
  destruct (build_grid_inv _ _ _ _ _ _ _ Hrun)
    as (lats & lons & Hlat & Hlon & Hloop & _).
  destruct (centers_inv _ _ _ _ _ Hlat) as [_ Hl1].
  destruct (centers_inv _ _ _ _ _ Hlon) as [_ Hl2].
  destruct (linspace_length _ _ _ _ Hl1) as [Hn1 Hlen1].
  destruct (linspace_length _ _ _ _ Hl2) as [Hn2 Hlen2].
  destruct (rows_partial _ _ _ _ _ _ _ _ _ _ _ Hloop (zeros_shape _ _ _) (zeros_bytes _ _ _))
    as (_ & _ & Hc).
  exists lats, lons. split; [exact Hlat|]. split; [exact Hlon|]. split; [exact Hc|].
  rewrite length_cell_calls, Hlen1, Hlen2, Z2Nat.inj_mul by lia. reflexivity.
Qed.

Lemma build_grid_samples_in_order_witness :
  exists out mt s',
    build_grid_with legacy_provider cast_zero small_config (Env () [])
    = (Ok (out, mt), s') /\
    keyword_calls (calls s')
    = reverse (cell_calls [F64.of_decimal 5 1; F64.of_decimal 15 1]
                 [F64.of_decimal 5 1; F64.of_decimal 15 1; F64.of_decimal 25 1]) /\
    length (calls s') = 12%nat.
Proof.
  destruct (build_grid_with legacy_provider cast_zero small_config (Env () []))
    as [[[out mt]|e] s'] eqn:E.
  - destruct (build_grid_samples_in_order _ _ _ _ _ _ _ E)
      as (lats & lons & Hlat & Hlon & Hc & _).
    vm_compute in Hlat. injection Hlat as <- _.
    vm_compute in Hlon. injection Hlon as <- _.
    vm_compute in E. injection E as <- <- <-.
    do 3 eexists. split; [reflexivity|]. split; [|reflexivity].
    rewrite Hc. vm_compute. reflexivity.
  - vm_compute in E. discriminate.
Defined.

(** ** A provider whose outcome depends on the coordinates only *)

Section Answers.
Context {W : Type}.
Variable provider : call -> W -> result (list spec_float) * W.
Variable cast_undefined : spec_float -> Z.
Variable cfg : config.
(** The outcome of a lookup depends on the coordinates only. *)
Variable answer : spec_float -> spec_float -> result (list spec_float).
Hypothesis outcome : forall lat lon s, exists s',
  lt_lookup provider months lat lon s = (answer lat lon, s').
(** The scale converts to a double. *)
Hypothesis scale_fits : is_inf (F64.of_Z (cfg_scale cfg)) = false.

Lemma cell_total (b c i j : nat) lat lon tl (out : volume) (s : env (W:=W)) :
  answer lat lon = Ok tl -> length tl = 12%nat -> length out = 12%nat ->
  (i < b)%nat -> (j < c)%nat ->
  exists out' s',
    sample_cell provider cast_undefined cfg b c i j lat lon out s = (Ok out', s') /\
    length out' = 12%nat /\
    keyword_calls (calls s') = Call Keyword months lat lon :: keyword_calls (calls s).
Proof using outcome scale_fits.
  intros Ha Htl Hout Hi Hj. destruct (outcome lat lon s) as [s1 Hl]. rewrite Ha in Hl.
  exists (put_column out i j (quantize cast_undefined (cfg_scale cfg) <$> tl)), s1.
  split; [apply sample_cell_stores; [exact Hl|exact scale_fits|congruence|exact Hi|exact Hj]|].
  split; [unfold put_column; rewrite length_imap; exact Hout|].
  exact (lt_lookup_log _ _ _ _ _ _ _ Hl).
Qed.

Lemma cell_raise (b c i j : nat) lat lon e (out : volume) (s : env (W:=W)) :
  answer lat lon = Raise e ->
  exists s',
    sample_cell provider cast_undefined cfg b c i j lat lon out s = (Raise e, s') /\
    keyword_calls (calls s') = Call Keyword months lat lon :: keyword_calls (calls s).
Proof using outcome.
  intros Ha. destruct (outcome lat lon s) as [s1 Hl]. rewrite Ha in Hl.
  exists s1. split; [|exact (lt_lookup_log _ _ _ _ _ _ _ Hl)].
  unfold sample_cell, mbind, M_bind. rewrite Hl. reflexivity.
Qed.

Lemma row_total (b c i : nat) lat lons (out : volume) (s : env (W:=W)) :
  (i < b)%nat -> (length lons <= c)%nat ->
  (forall j lon, lons !! j = Some lon ->
     exists tl, answer lat lon = Ok tl /\ length tl = 12%nat) ->
  length out = 12%nat ->
  exists out' s',
    for_enumerate (fun j lon => sample_cell provider cast_undefined cfg b c i j lat lon)
      0 lons out s = (Ok out', s') /\
    length out' = 12%nat /\
    keyword_calls (calls s') = reverse (row_calls lat lons) ++ keyword_calls (calls s).
Proof using outcome scale_fits.
  intros Hi Hc Hok Hout.
  pose (Inv := fun (j : nat) (o : volume) (st : env (W:=W)) =>
    length o = 12%nat /\
    keyword_calls (calls st)
    = reverse (row_calls lat (take j lons)) ++ keyword_calls (calls s)).
  destruct (for_enumerate_total
              (fun j lon => sample_cell provider cast_undefined cfg b c i j lat lon)
              Inv lons 0%nat out s) as (out' & s' & Hrun & Ho & Hlog).
  - intros k lon o st Hk [Ho Hlog]. cbn [Nat.add] in *.
    destruct (Hok k lon Hk) as (tl & Ha & Htl).
    pose proof (lookup_lt_Some _ _ _ Hk) as Hlt.
    destruct (cell_total b c i k lat lon tl o st Ha Htl Ho Hi ltac:(lia))
      as (o' & st' & Hcell & Ho' & Hlog').
    exists o', st'. split; [exact Hcell|]. split; [exact Ho'|].
    rewrite Hlog', Hlog, (take_S_r _ _ _ Hk). unfold row_calls.
    rewrite fmap_app, reverse_app. reflexivity.
  - split; [exact Hout|reflexivity].
  - exists out', s'. split; [exact Hrun|]. split; [exact Ho|].
    cbn [Nat.add] in Hlog. rewrite firstn_all in Hlog. exact Hlog.
Qed.

Lemma rows_total (b c : nat) lats lons (out : volume) (s : env (W:=W)) :
  (length lats <= b)%nat -> (length lons <= c)%nat ->
  (forall i j lat lon, lats !! i = Some lat -> lons !! j = Some lon ->
     exists tl, answer lat lon = Ok tl /\ length tl = 12%nat) ->
  length out = 12%nat ->
  exists out' s',
    for_enumerate
      (fun i lat =>
         for_enumerate (fun j lon => sample_cell provider cast_undefined cfg b c i j lat lon)
           0 lons)
      0 lats out s = (Ok out', s') /\
    length out' = 12%nat /\
    keyword_calls (calls s') = reverse (cell_calls lats lons) ++ keyword_calls (calls s).
Proof using outcome scale_fits.
  intros Hb Hc Hok Hout.
  pose (Inv := fun (i : nat) (o : volume) (st : env (W:=W)) =>
    length o = 12%nat /\
    keyword_calls (calls st)
    = reverse (cell_calls (take i lats) lons) ++ keyword_calls (calls s)).
  destruct (for_enumerate_total
              (fun i lat =>
                 for_enumerate
                   (fun j lon => sample_cell provider cast_undefined cfg b c i j lat lon)
                   0 lons)
              Inv lats 0%nat out s) as (out' & s' & Hrun & Ho & Hlog).
  - intros k lat o st Hk [Ho Hlog]. cbn [Nat.add] in *.
    pose proof (lookup_lt_Some _ _ _ Hk) as Hlt.
    destruct (row_total b c k lat lons o st ltac:(lia) Hc
                (fun j lon Hj => Hok k j lat lon Hk Hj) Ho)
      as (o' & st' & Hrow & Ho' & Hlog').
    exists o', st'. split; [exact Hrow|]. split; [exact Ho'|].
    rewrite Hlog', Hlog, (take_S_r _ _ _ Hk), cell_calls_snoc, reverse_app, app_assoc.
    reflexivity.
  - split; [exact Hout|reflexivity].
  - exists out', s'. split; [exact Hrun|]. split; [exact Ho|].
    cbn [Nat.add] in Hlog. rewrite firstn_all in Hlog. exact Hlog.
Qed.

Lemma rows_raise (b c : nat) lats lons (i j : nat) lat_i lon_j e (out : volume)
    (s : env (W:=W)) :
  length lats = b -> length lons = c ->
  lats !! i = Some lat_i -> lons !! j = Some lon_j ->
  answer lat_i lon_j = Raise e ->
  (forall i' j' lat lon, lats !! i' = Some lat -> lons !! j' = Some lon ->
     (i' < i \/ (i' = i /\ j' < j))%nat ->
     exists tl, answer lat lon = Ok tl /\ length tl = 12%nat) ->
  length out = 12%nat ->
  exists s',
    for_enumerate
      (fun i lat =>
         for_enumerate (fun j lon => sample_cell provider cast_undefined cfg b c i j lat lon)
           0 lons)
      0 lats out s = (Raise e, s') /\
    keyword_calls (calls s')
    = Call Keyword months lat_i lon_j
      :: reverse (cell_calls (take i lats) lons ++ row_calls lat_i (take j lons))
      ++ keyword_calls (calls s).
Proof using outcome scale_fits.
  intros Hb Hc Hi Hj Ha Hbefore Hout.
  pose proof (lookup_lt_Some _ _ _ Hi) as Hilt.
  pose proof (lookup_lt_Some _ _ _ Hj) as Hjlt.
  (* the rows before row i *)
  destruct (rows_total b c (take i lats) lons out s) as (o1 & s1 & Hrows & Ho1 & Hlog1).
  { rewrite length_take. lia. }
  { lia. }
  { intros i' j' lat lon Hi' Hj'.
    pose proof (lookup_lt_Some _ _ _ Hi') as H1. rewrite length_take in H1.
    rewrite lookup_take_lt in Hi' by lia.
    apply (Hbefore i' j' lat lon Hi' Hj'). lia. }
  { exact Hout. }
  (* row i up to column j *)
  destruct (row_total b c i lat_i (take j lons) o1 s1) as (o2 & s2 & Hrow & Ho2 & Hlog2).
  { lia. }
  { rewrite length_take. lia. }
  { intros j' lon Hj'.
    pose proof (lookup_lt_Some _ _ _ Hj') as H1. rewrite length_take in H1.
    rewrite lookup_take_lt in Hj' by lia.
    apply (Hbefore i j' lat_i lon Hi Hj'). lia. }
  { exact Ho1. }
  destruct (cell_raise b c i j lat_i lon_j e o2 s2 Ha) as (s3 & Hcell & Hlog3).
  exists s3. split.
  - rewrite <- (take_drop_middle lats i lat_i Hi).
    apply (for_enumerate_raise _ _ _ _ _ _ _ o1 s1); [exact Hrows|].
    rewrite length_take. replace (0 + i `min` length lats)%nat with i by lia.
    rewrite <- (take_drop_middle lons j lon_j Hj).
    apply (for_enumerate_raise _ _ _ _ _ _ _ o2 s2); [exact Hrow|].
    rewrite length_take. replace (0 + j `min` length lons)%nat with j by lia.
    exact Hcell.
  - rewrite Hlog3, Hlog2, Hlog1, reverse_app, app_assoc. reflexivity.
Qed.
End Answers.

(** ** Failure of a lookup *)

(** X5.  With a scale that fits the header's [scale] field and a provider
    whose outcome depends on the coordinates only: if the lookup of cell (i, j)
    raises [e] and every cell before it, in latitude-major order, is
    answered with twelve values, then the two loops, run on an array of
    shape (12, number of latitudes, number of longitudes), raise [e]; the
    lookup of cell (i, j) is the last one made, after exactly one lookup of
    each earlier cell, and no later cell is looked up.  [build_grid] then
    returns no grid. *)
Theorem fill_grid_aborts_at_first_failure {W : Type}
    (provider : call -> W -> result (list spec_float) * W)
    (cast_undefined : spec_float -> Z) (cfg : config)
    (answer : spec_float -> spec_float -> result (list spec_float))
    lats lons (i j : nat) lat_i lon_j e :
  0 <= cfg_scale cfg <= 255 ->
  (forall lat lon s0, exists s1,
      lt_lookup provider months lat lon s0 = (answer lat lon, s1)) ->
  lats !! i = Some lat_i -> lons !! j = Some lon_j ->
  answer lat_i lon_j = Raise e ->
  (forall i' j' lat lon, lats !! i' = Some lat -> lons !! j' = Some lon ->
     (i' < i \/ (i' = i /\ j' < j))%nat ->
     exists tl, answer lat lon = Ok tl /\ length tl = 12%nat) ->
  (forall out (s : env (W:=W)),
     has_shape 12 (length lats) (length lons) out ->
     exists s',
       fill_grid provider cast_undefined cfg (length lats) (length lons) lats lons out s
       = (Raise e, s') /\
       keyword_calls (calls s')
       = Call Keyword months lat_i lon_j
         :: reverse (cell_calls (take i lats) lons ++ row_calls lat_i (take j lons))
         ++ keyword_calls (calls s)) /\
  (forall n_lat n_lon (s : env (W:=W)) out mt s',
     centers (lat_min cfg) (lat_max cfg) (cfg_dlat cfg) = Ok (lats, n_lat) ->
     centers (lon_min cfg) (lon_max cfg) (cfg_dlon cfg) = Ok (lons, n_lon) ->
     build_grid_with provider cast_undefined cfg s <> (Ok (out, mt), s')).
Proof.
  intros Hsc Hans Hi Hj Ha Hbefore. pose proof (byte_scale_fits _ Hsc) as Hfit.
  assert (Hloop : forall out (s : env (W:=W)),
            has_shape 12 (length lats) (length lons) out ->
            exists s',
              fill_grid provider cast_undefined cfg (length lats) (length lons)
                lats lons out s = (Raise e, s') /\
              keyword_calls (calls s')
              = Call Keyword months lat_i lon_j
                :: reverse (cell_calls (take i lats) lons ++ row_calls lat_i (take j lons))
                ++ keyword_calls (calls s)).
  { intros out s [Hout _].
    exact (rows_raise provider cast_undefined cfg answer Hans Hfit
             (length lats) (length lons) lats lons i j lat_i lon_j e out s
             eq_refl eq_refl Hi Hj Ha Hbefore Hout). }
  split; [exact Hloop|].
  intros n_lat n_lon s out mt s' Hlat Hlon Hrun.
  destruct (centers_inv _ _ _ _ _ Hlat) as [_ Hl1].
  destruct (centers_inv _ _ _ _ _ Hlon) as [_ Hl2].
  destruct (linspace_length _ _ _ _ Hl1) as [_ Hlen1].
  destruct (linspace_length _ _ _ _ Hl2) as [_ Hlen2].
  destruct (Hloop (zeros 12 (length lats) (length lons)) s (zeros_shape _ _ _))
    as (s1 & Hfail & _).
  unfold build_grid_with, mbind, M_bind, lift in Hrun.
  rewrite Hlat, Hlon, <- Hlen1, <- Hlen2, Hfail in Hrun. discriminate.
Qed.

Lemma fill_grid_aborts_at_first_failure_witness :
  exists s',
    fill_grid (gap_provider (F64.of_decimal 15 1) (F64.of_decimal 15 1))
      cast_zero small_config 2 3
      [F64.of_decimal 5 1; F64.of_decimal 15 1]
      [F64.of_decimal 5 1; F64.of_decimal 15 1; F64.of_decimal 25 1]
      (zeros 12 2 3) (Env () [])
    = (Raise (OtherError "KeyError"), s') /\
    length (keyword_calls (calls s')) = 5%nat.
Proof.
  destruct (fill_grid_aborts_at_first_failure
              (gap_provider (F64.of_decimal 15 1) (F64.of_decimal 15 1))
              cast_zero small_config
              (gap_answer (F64.of_decimal 15 1) (F64.of_decimal 15 1))
              [F64.of_decimal 5 1; F64.of_decimal 15 1]
              [F64.of_decimal 5 1; F64.of_decimal 15 1; F64.of_decimal 25 1]
              1%nat 1%nat (F64.of_decimal 15 1) (F64.of_decimal 15 1)
              (OtherError "KeyError"))
    as (Hloop & _).
  - change (cfg_scale small_config) with 20. lia.
  - intros lat lon s0. unfold lt_lookup, invoke, gap_provider, gap_answer.
    cbn [latitude longitude world calls].
    destruct (SFeqb lat _ && SFeqb lon _); eexists; reflexivity.
  - reflexivity.
  - reflexivity.
  - vm_compute. reflexivity.
  - intros i' j' lat lon Hi' Hj' Hlt.
    destruct i' as [|[|i']]; [| |discriminate];
      (destruct j' as [|[|[|j']]]; [| | |discriminate]);
      injection Hi' as <-; injection Hj' as <-;
      try (exfalso; lia);
      (eexists; split; [vm_compute; reflexivity|reflexivity]).
  - destruct (Hloop (zeros 12 2 3) (Env () []) (zeros_shape _ _ _)) as (s' & Hrun & Hlog).
    exists s'. split; [exact Hrun|]. rewrite Hlog. reflexivity.
Defined.

(** ** Every cell of the assembled grid *)

(** X1.  With a scale that fits the header's [scale] field and a provider
    that answers every coordinate pair with twelve values: the two loops, run on any
    axes and an array of shape (12, number of latitudes, number of
    longitudes), end without an exception, and element (m, i, j) of the
    array is then the quantized value of month [m] at (lats[i], lons[j]);
    so the same holds of every grid that [build_grid] returns, for the
    centres of its two axes. *)
Theorem build_grid_assembles {W : Type}
    (provider : call -> W -> result (list spec_float) * W)
    (cast_undefined : spec_float -> Z) (cfg : config)
    (series : spec_float -> spec_float -> list spec_float) :
  0 <= cfg_scale cfg <= 255 ->
  (forall lat lon s0, exists s1,
      lt_lookup provider months lat lon s0 = (Ok (series lat lon), s1)) ->
  (forall lat lon, length (series lat lon) = 12%nat) ->
  (forall lats lons out (s : env (W:=W)),
     has_shape 12 (length lats) (length lons) out ->
     exists out' s',
       fill_grid provider cast_undefined cfg (length lats) (length lons) lats lons out s
       = (Ok out', s') /\
       has_shape 12 (length lats) (length lons) out' /\
       forall (m i j : nat) lat lon, (m < 12)%nat ->
         lats !! i = Some lat -> lons !! j = Some lon ->
         vget out' m i j
         = (quantize cast_undefined (cfg_scale cfg) <$> series lat lon) !! m) /\
  (forall (s : env (W:=W)) out mt s',
     build_grid_with provider cast_undefined cfg s = (Ok (out, mt), s') ->
     exists lats lons,
       centers (lat_min cfg) (lat_max cfg) (cfg_dlat cfg) = Ok (lats, nlat mt) /\
       centers (lon_min cfg) (lon_max cfg) (cfg_dlon cfg) = Ok (lons, nlon mt) /\
       forall (m i j : nat) lat lon, (m < 12)%nat ->
         lats !! i = Some lat -> lons !! j = Some lon ->
         vget out m i j
         = (quantize cast_undefined (cfg_scale cfg) <$> series lat lon) !! m).
Proof.
  intros Hsc Hans Htw. pose proof (byte_scale_fits _ Hsc) as Hfit.
  assert (Hloop : forall lats lons out (s : env (W:=W)),
            has_shape 12 (length lats) (length lons) out ->
            exists out' s',
              fill_grid provider cast_undefined cfg (length lats) (length lons)
                lats lons out s = (Ok out', s') /\
              has_shape 12 (length lats) (length lons) out' /\
              forall (m i j : nat) lat lon, (m < 12)%nat ->
                lats !! i = Some lat -> lons !! j = Some lon ->
                vget out' m i j
                = (quantize cast_undefined (cfg_scale cfg) <$> series lat lon) !! m).
  { intros lats lons out s Hs.
    destruct (fill_rows provider cast_undefined cfg series Hans Htw Hfit
                (length lats) (length lons) lons eq_refl lats 0%nat out s
                ltac:(lia) Hs)
      as (out' & s' & Hrun & Hs' & _ & Hin & _).
    exists out', s'. split; [exact Hrun|]. split; [exact Hs'|].
    intros m i j lat lon Hm Hi Hj. exact (Hin m i j lat lon Hm Hi Hj). }
  split; [exact Hloop|].
  intros s out mt s' Hrun.
  destruct (build_grid_inv _ _ _ _ _ _ _ Hrun)
    as (lats & lons & Hlat & Hlon & Hfill & _).
  destruct (centers_inv _ _ _ _ _ Hlat) as [_ Hl1].
  destruct (centers_inv _ _ _ _ _ Hlon) as [_ Hl2].
  destruct (linspace_length _ _ _ _ Hl1) as [_ Hlen1].
  destruct (linspace_length _ _ _ _ Hl2) as [_ Hlen2].
  rewrite <- Hlen1, <- Hlen2 in Hfill.
  destruct (Hloop lats lons (zeros 12 (length lats) (length lons)) s (zeros_shape _ _ _))
    as (out' & s'' & Hrun' & _ & Hcells).
  rewrite Hfill in Hrun'. injection Hrun' as <- _.
  exists lats, lons. split; [exact Hlat|]. split; [exact Hlon|]. exact Hcells.
Qed.

Lemma build_grid_assembles_witness :
  exists out mt s',
    build_grid_with (flat_provider (F64.of_decimal 307 2)) cast_zero small_config
      (Env () []) = (Ok (out, mt), s') /\
    lat0 mt = F64.of_decimal 5 1 /\
    vget out 11 1 2 = Some 61.
Proof.
  destruct (build_grid_with (flat_provider (F64.of_decimal 307 2)) cast_zero small_config
              (Env () [])) as [[[out mt]|e] s'] eqn:E.
  - destruct (proj2 (build_grid_assembles (flat_provider (F64.of_decimal 307 2))
                       cast_zero small_config
                       (fun _ _ => replicate 12 (F64.of_decimal 307 2))
                       ltac:(change (cfg_scale small_config) with 20; lia)
                       (fun lat lon s0 => ex_intro _ _ eq_refl)
                       (fun _ _ => eq_refl))
                _ _ _ _ E)
      as (lats & lons & Hlat & Hlon & Hcells).
    vm_compute in Hlat. injection Hlat as <- _.
    vm_compute in Hlon. injection Hlon as <- _.
    pose proof (Hcells 11%nat 1%nat 2%nat _ _ ltac:(lia) eq_refl eq_refl) as Hc.
    vm_compute in E. injection E as <- <- <-.
    do 3 eexists. split; [reflexivity|]. split; [reflexivity|].
    rewrite Hc. vm_compute. reflexivity.
  - vm_compute in E. discriminate.
Defined.

(** X11.  With a scale that fits the header's [scale] field, a series that
    does not have twelve values: a series of one value is broadcast, its quantized
    value going to all twelve months of the cell and nothing else changing;
    a series of any other length makes the assignment of line 48 raise
    [ValueError], after the lookup. *)
Theorem sample_cell_series_length {W : Type}
    (provider : call -> W -> result (list spec_float) * W)
    (cast_undefined : spec_float -> Z) cfg (b c i j : nat) lat lon out s tl s1 :
  lt_lookup provider months lat lon s = (Ok tl, s1) ->
  0 <= cfg_scale cfg <= 255 ->
  has_shape 12 b c out -> (i < b)%nat -> (j < c)%nat ->
  length tl <> 12%nat ->
  match tl with
  | [v] =>
      exists out',
        sample_cell provider cast_undefined cfg b c i j lat lon out s = (Ok out', s1) /\
        has_shape 12 b c out' /\
        (forall m : nat, (m < 12)%nat ->
           vget out' m i j = Some (quantize cast_undefined (cfg_scale cfg) v)) /\
        (forall m i' j' : nat, i' <> i \/ j' <> j ->
           vget out' m i' j' = vget out m i' j')
  | _ => sample_cell provider cast_undefined cfg b c i j lat lon out s
         = (Raise ValueError, s1)
  end.
Proof.
  intros Hl Hsc Hs Hi Hj Hlen. pose proof (byte_scale_fits _ Hsc) as Hfit.
  assert (Hrun : sample_cell provider cast_undefined cfg b c i j lat lon out s
                 = (match tl with
                    | [v] => Ok (put_column out i j
                                   (replicate 12 (quantize cast_undefined (cfg_scale cfg) v)))
                    | _ => Raise ValueError
                    end, s1)).
  { unfold sample_cell, mbind, M_bind. rewrite Hl. unfold lift, float_of_int.
    rewrite Hfit. unfold assign_column.
    destruct (Nat.ltb_spec i b); [|lia]. destruct (Nat.ltb_spec j c); [|lia].
    cbn [andb negb]. rewrite length_fmap. destruct Hs as [Ha _]. rewrite Ha.
    destruct (Nat.eqb_spec (length tl) 12); [contradiction|].
    destruct tl as [|v [|w tl]]; try reflexivity.
    cbn [fmap list_fmap]. rewrite broadcast_put_column, Ha. reflexivity. }
  destruct tl as [|v [|w tl]]; try exact Hrun.
  eexists. split; [exact Hrun|]. split; [apply put_column_shape; exact Hs|]. split.
  - intros m Hm.
    rewrite (vget_put_eq 12 b c) by (try rewrite length_replicate; auto).
    apply lookup_replicate_2. exact Hm.
  - intros m i' j' Hne. apply vget_put_ne. exact Hne.
Qed.

Lemma sample_cell_series_length_witness :
  (exists out',
     sample_cell (short_provider 1 (F64.of_decimal 307 2)) cast_zero CONFIG 1 1 0 0
       LAT_MIN LON_MIN (zeros 12 1 1) (Env () [])
     = (Ok out', Env () [Call Keyword months LAT_MIN LON_MIN]) /\
     vget out' 7 0 0 = Some 61) /\
  sample_cell (short_provider 5 (F64.of_decimal 307 2)) cast_zero CONFIG 1 1 0 0
    LAT_MIN LON_MIN (zeros 12 1 1) (Env () [])
  = (Raise ValueError, Env () [Call Keyword months LAT_MIN LON_MIN]).
Proof.
  split.
  - destruct (sample_cell_series_length (short_provider 1 (F64.of_decimal 307 2))
                cast_zero CONFIG 1 1 0 0 LAT_MIN LON_MIN (zeros 12 1 1) (Env () [])
                [F64.of_decimal 307 2] (Env () [Call Keyword months LAT_MIN LON_MIN]))
      as (out' & Hrun & _ & Hcell & _).
    + reflexivity.
    + change (cfg_scale CONFIG) with 20. lia.
    + apply zeros_shape.
    + lia.
    + lia.
    + cbn. lia.
    + exists out'. split; [exact Hrun|]. rewrite (Hcell 7%nat) by lia.
      vm_compute. reflexivity.
  - apply (sample_cell_series_length (short_provider 5 (F64.of_decimal 307 2))
             cast_zero CONFIG 1 1 0 0 LAT_MIN LON_MIN (zeros 12 1 1) (Env () [])
             (replicate 5 (F64.of_decimal 307 2))
             (Env () [Call Keyword months LAT_MIN LON_MIN])).
    + reflexivity.
    + change (cfg_scale CONFIG) with 20. lia.
    + apply zeros_shape.
    + lia.
    + lia.
    + cbn. lia.
Defined.

(** ** The failures of [centers] *)

(** X6.  With [q = (vmax - vmin) / dv]: [centers] raises
    [ZeroDivisionError] when [dv] is a zero; otherwise [OverflowError] when
    [q] is infinite, and [ValueError] when [q] is NaN or rounds to a
    negative count.  When it returns, [dv] is not zero, the count is
    [round(q)], it is not negative, and it is the number of values
    returned. *)
Theorem centers_outcomes vmin vmax dv :
  let q := F64.div (F64.sub vmax vmin) dv in
  (is_zero dv = true -> centers vmin vmax dv = Raise ZeroDivisionError) /\
  (is_zero dv = false -> is_inf q = true ->
   centers vmin vmax dv = Raise OverflowError) /\
  (is_zero dv = false -> is_nan q = true ->
   centers vmin vmax dv = Raise ValueError) /\
  (is_zero dv = false -> forall n, py_round q = Ok n -> n < 0 ->
   centers vmin vmax dv = Raise ValueError) /\
  (forall xs n, centers vmin vmax dv = Ok (xs, n) ->
     is_zero dv = false /\ py_round q = Ok n /\ 0 <= n /\ length xs = Z.to_nat n).
Proof.
  cbv zeta. unfold centers, cell_count, py_truediv.
  destruct (is_zero dv) eqn:Hz.
  - split; [reflexivity|]. repeat split; try discriminate.
  - cbn [mbind result_bind]. split; [discriminate|].
    split; [|split; [|split]].
    + intros _ Hq. destruct (F64.div (F64.sub vmax vmin) dv); try discriminate.
      reflexivity.
    + intros _ Hq. destruct (F64.div (F64.sub vmax vmin) dv); try discriminate.
      reflexivity.
    + intros _ n Hr Hn. rewrite Hr. cbn [mbind result_bind].
      rewrite linspace_negative by exact Hn. reflexivity.
    + intros xs n H.
      destruct (py_round (F64.div (F64.sub vmax vmin) dv)) as [n'|e] eqn:Hr;
        [|discriminate].
      cbn [mbind result_bind] in H.
      destruct (linspace _ _ n') as [xs'|e] eqn:Hl; [|discriminate].
      cbn in H. injection H as <- <-.
      destruct (linspace_length _ _ _ _ Hl) as [Hn Hlen]. auto.
Qed.

(** ** The file [write_bin] leaves *)

(** X7.  A successful [write_bin] replaces the file at [path], discarding
    what it held, and touches no other path; the bytes it leaves depend on
    the grid only: every other successful write of the same grid, on any
    file system, leaves the same bytes, so writing it again changes
    nothing. *)
Theorem write_bin_replaces_file sys path arr mt (fs fs' : gmap string (list Z)) :
  write_bin sys path arr mt fs = (Ok (), fs') ->
  exists bs,
    fs' = <[path := bs]> fs /\
    (forall p, p <> path -> fs' !! p = fs !! p) /\
    (forall sys0 fs0 fs0', write_bin sys0 path arr mt fs0 = (Ok (), fs0') ->
                           fs0' = <[path := bs]> fs0) /\
    (forall sys0 fs'', write_bin sys0 path arr mt fs' = (Ok (), fs'') -> fs'' = fs').
Proof.
  intros Hw. destruct (write_bin_inv _ _ _ _ _ _ Hw) as (h & Hh & ->).
  exists (h ++ tobytes arr). split; [reflexivity|]. split; [|split].
  - intros p Hp. apply lookup_insert_ne. congruence.
  - intros sys0 fs0 fs0' H0. destruct (write_bin_inv _ _ _ _ _ _ H0) as (h0 & Hh0 & ->).
    rewrite Hh in Hh0. injection Hh0 as <-. reflexivity.
  - intros sys0 fs'' H0. destruct (write_bin_inv _ _ _ _ _ _ H0) as (h0 & Hh0 & ->).
    rewrite Hh in Hh0. injection Hh0 as <-. apply insert_insert_eq.
Qed.

Lemma write_bin_replaces_file_witness :
  exists bs,
    (write_bin sound "a.bin" sample_volume sample_meta
       {[ "a.bin" := [1; 2; 3]; "b.bin" := [4] ]}).2
    = {[ "a.bin" := bs; "b.bin" := [4] ]} /\
    length bs = 52%nat.
Proof.
  destruct (write_bin_replaces_file sound "a.bin" sample_volume sample_meta
              {[ "a.bin" := [1; 2; 3]; "b.bin" := [4] ]}
              (write_bin sound "a.bin" sample_volume sample_meta
                 {[ "a.bin" := [1; 2; 3]; "b.bin" := [4] ]}).2)
    as (bs & Hfs & _ & Hany & _).
  - vm_compute. reflexivity.
  - exists bs. split.
    + rewrite Hfs. apply insert_insert_eq.
    + specialize (Hany sound ∅ (write_bin sound "a.bin" sample_volume sample_meta ∅).2).
      assert (Hb : <[ "a.bin" := bs ]> (∅ : gmap string (list Z)) !! "a.bin" = Some bs)
        by apply lookup_insert_eq.
      rewrite <- Hany in Hb by (vm_compute; reflexivity).
      vm_compute in Hb. injection Hb as <-. reflexivity.
Defined.

Lemma written_inv arr mt bs :
  written arr mt = Some bs ->
  within_widths mt /\ floats_fit mt /\
  bs = (magic ++ le_bytes 2 2 ++ le_bytes 2 (nlat mt) ++ le_bytes 2 (nlon mt)
        ++ le_bytes 1 (scale mt) ++ le_bytes 1 0
        ++ le_bytes 4 (F32.bits (F32.of_f64 (lat0 mt)))
        ++ le_bytes 4 (F32.bits (F32.of_f64 (lon0 mt)))
        ++ le_bytes 4 (F32.bits (F32.of_f64 (dlat mt)))
        ++ le_bytes 4 (F32.bits (F32.of_f64 (dlon mt)))) ++ tobytes arr.
Proof.
  intros Hw. destruct (header mt) as [h|e] eqn:Hh.
  - destruct (header_inv _ _ Hh) as [Hwd Hf]. split; [exact Hwd|]. split; [exact Hf|].
    rewrite (header_ok mt Hwd Hf) in Hh. injection Hh as <-.
    rewrite (written_ok arr mt _ (header_ok mt Hwd Hf)) in Hw. injection Hw as <-.
    reflexivity.
  - unfold written in Hw. rewrite (write_bin_raise _ _ _ _ _ _ Hh) in Hw. discriminate.
Qed.

(** X8.  The encoding loses nothing of the grid: two arrays of the shapes
    their metadata announce that are written to the same bytes are equal,
    and their metadata agree on the counts, the scale and the binary32
    roundings of the four floats (so they are equal when the floats are
    binary32 values). *)
Theorem written_injective arr1 mt1 arr2 mt2 bs :
  has_shape 12 (Z.to_nat (nlat mt1)) (Z.to_nat (nlon mt1)) arr1 ->
  has_shape 12 (Z.to_nat (nlat mt2)) (Z.to_nat (nlon mt2)) arr2 ->
  written arr1 mt1 = Some bs -> written arr2 mt2 = Some bs ->
  arr1 = arr2 /\ meta_f32 mt1 = meta_f32 mt2 /\
  (floats_exact mt1 -> floats_exact mt2 -> mt1 = mt2).
Proof.
  intros Hs1 Hs2 Hw1 Hw2.
  destruct (written_inv _ _ _ Hw1) as (Hwd1 & _ & Hb1).
  destruct (written_inv _ _ _ Hw2) as (Hwd2 & _ & Hb2).
  pose proof (decode_header_payload mt1 arr1 Hwd1 Hs1) as Hd1.
  pose proof (decode_header_payload mt2 arr2 Hwd2 Hs2) as Hd2.
  rewrite <- Hb1 in Hd1. rewrite <- Hb2 in Hd2. rewrite Hd1 in Hd2.
  assert (Heq : (meta_f32 mt1, arr1) = (meta_f32 mt2, arr2)) by congruence.
  pose proof (f_equal fst Heq) as Hm. pose proof (f_equal snd Heq) as Ha.
  cbn [fst snd] in Hm, Ha. split; [exact Ha|]. split; [exact Hm|].
  intros He1 He2. rewrite <- (meta_f32_exact mt1 He1), <- (meta_f32_exact mt2 He2).
  exact Hm.
Qed.

Lemma written_injective_witness :
  zeros 12 1 1 = zeros 12 1 1 /\
  meta_f32 tenth_meta = meta_f32 (meta_f32 tenth_meta).
Proof.
  destruct (written_injective (zeros 12 1 1) tenth_meta (zeros 12 1 1)
              (meta_f32 tenth_meta)
              (default [] (written (zeros 12 1 1) tenth_meta)))
    as (Ha & Hm & _).
  - apply zeros_shape.
  - apply zeros_shape.
  - vm_compute. reflexivity.
  - vm_compute. reflexivity.
  - split; assumption.
Defined.

(** ** Accuracy of the quantizer *)

Lemma rhe_div_error a b : 0 < b -> 2 * Z.abs (rhe_div a b * b - a) <= b.
Proof.
  intros Hb. unfold rhe_div.
  pose proof (Z.div_mod a b ltac:(lia)) as Hdm.
  pose proof (Z.mod_pos_bound a b Hb) as Hr.
  set (q := a / b) in *. set (r := a mod b) in *.
  destruct (Z.compare_spec (2 * r) b); [destruct (Z.even q)| |]; lia.
Qed.

(** X9.  For a finite value whose scaled float lies strictly between 0 and
    255, the stored byte is within one half of the scaled float: nothing is
    lost beyond the rounding to the nearest integer. *)
Theorem quantize_within_half_unit cast v :
  F64.valid v = true -> is_finite v = true ->
  SFltb (F64.of_Z 0) (F64.mul v (F64.of_Z SCALE)) = true ->
  SFltb (F64.mul v (F64.of_Z SCALE)) (F64.of_Z 255) = true ->
  (Qabs (inject_Z (quantize cast SCALE v) - SF2Q (F64.mul v (F64.of_Z SCALE)))
   <= 1 # 2)%Q.
Proof.
  intros Hv Hf Hlo Hhi. rewrite quantize_eq_pipeline.
  assert (Hvx : F64.valid (F64.mul v (F64.of_Z SCALE)) = true)
    by (apply SFmul_valid; [reflexivity|reflexivity|exact Hv|exact scale_valid]).
  destruct (F64.mul v (F64.of_Z SCALE)) as [sx|sx| |sx m e] eqn:Ex;
    try discriminate; try (destruct sx; discriminate).
  destruct sx; [discriminate|].
  destruct (below_255 m e Hvx Hhi) as [He Hm].
  assert (HB : 0 < 2 ^ (- e)) by (apply Z.pow_pos_nonneg; lia).
  destruct (quantize_pipeline cast (S754_finite false m e) Hvx eq_refl) as [Hb _].
  cbv zeta in Hb. rewrite Hb. clear Hb.
  unfold clip_0_255, SF2Q. destruct (Z.leb_spec 0 e); [lia|].
  rewrite Qclip_mid.
  2:{ cbn [Qnum Qden smant cond_Zopp]. rewrite Z2Pos.id by lia. lia. }
  rewrite round_half_even_Qmake, Z2Pos.id by lia.
  cbn [smant cond_Zopp].
  pose proof (rhe_div_error (Zpos m) (2 ^ (- e)) HB) as Herr.
  unfold Qle, Qabs, Qminus, Qplus, Qopp, inject_Z. cbn [Qnum Qden].
  rewrite Pos.mul_1_l, Z2Pos.id by lia.
  lia.
Qed.

Lemma quantize_within_half_unit_witness :
  (Qabs (inject_Z 61 - SF2Q (F64.mul (F64.of_decimal 307 2) (F64.of_Z SCALE)))
   <= 1 # 2)%Q.
Proof.
  apply (quantize_within_half_unit cast_zero (F64.of_decimal 307 2));
    vm_compute; reflexivity.
Defined.

(** X10.  Every byte is a fixed point of decoding and requantizing: for
    each [b] in [0, 255], quantizing the float [b / SCALE] gives [b] back.
    So every byte value can be stored, and a grid read back and quantized
    again is unchanged. *)
Theorem requantize_roundtrip cast (b : Z) :
  0 <= b <= 255 ->
  quantize cast SCALE (F64.div (F64.of_Z b) (F64.of_Z SCALE)) = b.
Proof.
  intros Hb.
  assert (Hall : forallb (fun n => quantize cast SCALE
                                     (F64.div (F64.of_Z (Z.of_nat n)) (F64.of_Z SCALE))
                                   =? Z.of_nat n)
                         (seq 0 256) = true) by (vm_compute; reflexivity).
  rewrite forallb_forall in Hall.
  specialize (Hall (Z.to_nat b)). rewrite Z2Nat.id in Hall by lia.
  apply Z.eqb_eq, Hall, in_seq. lia.
Qed.

Lemma requantize_roundtrip_witness :
  quantize cast_zero SCALE (F64.div (F64.of_Z 61) (F64.of_Z SCALE)) = 61.
Proof. apply (requantize_roundtrip cast_zero 61). lia. Defined.

(** X13.  A zero of either sign, a negative finite value and minus infinity
    are all stored as 0, on every platform: the product with the scale
    keeps the sign, and the clip brings it to 0 before the conversion. *)
Theorem quantize_nonpositive_is_zero cast v :
  F64.valid v = true ->
  is_zero v = true \/ SFltb v (F64.of_Z 0) = true ->
  quantize cast SCALE v = 0.
Proof.
  intros Hv Hneg. rewrite quantize_eq_pipeline.
  destruct v as [s|s| |s m e].
  - destruct s; reflexivity.
  - destruct s; [reflexivity|]. destruct Hneg; discriminate.
  - destruct Hneg; discriminate.
  - destruct s; [|destruct Hneg; discriminate].
    unfold F64.valid in Hv. cbn [valid_binary] in Hv. unfold bounded in Hv.
    apply andb_true_iff in Hv. destruct Hv as [Hc _].
    change (F64.of_Z SCALE) with (S754_finite false 5629499534213120 (-48)).
    change (F64.mul (S754_finite true m e) (S754_finite false 5629499534213120 (-48)))
      with (binary_round_aux F64.prec F64.emax true
              (Zpos (m * 5629499534213120)) (e + -48) loc_Exact).
    destruct (binary_round_aux_shape F64.prec F64.emax eq_refl true
                (Zpos (m * 5629499534213120)) (e + -48) loc_Exact)
      as [Hr|[Hr|(m' & e' & Hr & _)]].
    + lia.
    + apply (mul_align F64.prec F64.emax eq_refl eq_refl); [exact Hc|reflexivity].
    + cbv zeta in Hr. rewrite Hr. reflexivity.
    + cbv zeta in Hr. rewrite Hr. reflexivity.
    + cbv zeta in Hr. rewrite Hr. reflexivity.
Qed.

Lemma quantize_nonpositive_is_zero_witness :
  quantize cast_zero SCALE (F64.of_decimal (-5) 2) = 0.
Proof.
  apply (quantize_nonpositive_is_zero cast_zero (F64.of_decimal (-5) 2)).
  - vm_compute. reflexivity.
  - right. vm_compute. reflexivity.
Defined.

(** ** The whole run, whatever the provider *)

(** X3.  If [build_grid] fails, the script fails with the same exception
    and touches no file.  If [build_grid] returns, the header always packs
    (the metadata of the shipped configuration fit its fields), so the
    script can then fail in the operating system only: it succeeds or
    raises [OSError], touches no path but [OUTFILE], touches nothing when
    the file cannot be opened, and succeeds when the operating system
    reports no failure. *)
Theorem main_outcomes {W : Type}
    (provider : call -> W -> result (list spec_float) * W)
    (cast_undefined : spec_float -> Z) (sys : os) (s : env (W:=W))
    (fs : gmap string (list Z)) :
  (forall e s', build_grid provider cast_undefined s = (Raise e, s') ->
     main provider cast_undefined sys s fs = (Raise e, s', fs)) /\
  (forall grid mt s', build_grid provider cast_undefined s = (Ok (grid, mt), s') ->
     (exists h, header mt = Ok h /\ length h = 28%nat) /\
     exists r fs',
       main provider cast_undefined sys s fs = (r, s', fs') /\
       (r = Ok () \/ r = Raise OSError) /\
       (forall p, p <> OUTFILE -> fs' !! p = fs !! p) /\
       (can_open sys OUTFILE = false -> r = Raise OSError /\ fs' = fs) /\
       (writable sys OUTFILE -> r = Ok ())).
Proof.
  split.
  - intros e s' Hb. unfold main. rewrite Hb. reflexivity.
  - intros grid mt s' Hb.
    destruct (shipped_meta _ _ _ _ _ _ Hb) as (Hmt & _ & _).
    assert (Hw : within_widths mt)
      by (rewrite Hmt; unfold within_widths, SCALE; cbn [nlat nlon scale]; lia).
    assert (Hf : floats_fit mt) by (rewrite Hmt; repeat split; vm_compute; reflexivity).
    pose proof (header_ok mt Hw Hf) as Hh.
    split; [eexists; split; [exact Hh|reflexivity]|].
    unfold main. rewrite Hb.
    destruct (write_bin sys OUTFILE grid mt fs) as [r fs'] eqn:E.
    exists r, fs'. split; [reflexivity|].
    pose proof (write_bin_opened _ _ _ _ _ _ _ _ Hh E) as Hout.
    split; [|split; [|split]].
    + destruct Hout as [[-> _]|[-> _]]; auto.
    + destruct Hout as [[_ ->]|[_ H]]; [|exact H].
      intros p Hp. apply lookup_insert_ne. congruence.
    + intros Ho. rewrite (write_bin_closed _ _ _ _ _ _ Hh Ho) in E.
      injection E as <- <-. auto.
    + intros Hok. rewrite (write_bin_ok _ _ _ _ _ _ Hh Hok) in E.
      injection E as <- _. reflexivity.
Qed.

Lemma main_succeeds {W : Type}
    (provider : call -> W -> result (list spec_float) * W)
    (cast_undefined : spec_float -> Z) (sys : os)
    (series : spec_float -> spec_float -> list spec_float)
    (s : env (W:=W)) (fs : gmap string (list Z)) :
  (forall lat lon s0, exists s1,
      lt_lookup provider months lat lon s0 = (Ok (series lat lon), s1)) ->
  (forall lat lon, length (series lat lon) = 12%nat) ->
  writable sys OUTFILE ->
  exists s' fs', main provider cast_undefined sys s fs = (Ok (), s', fs').
Proof.
  intros Hans Htw Hsys.
  destruct shipped_axes as (lats & lons & Hlat & Hlon & _).
  destruct (build_grid_cells provider cast_undefined CONFIG series Hans Htw eq_refl
              lats 130 lons 360 s Hlat Hlon ltac:(lia) ltac:(lia))
    as (out & la & lo & s' & Hrun & _).
  fold (build_grid provider cast_undefined) in Hrun.
  destruct (shipped_meta _ _ _ _ _ _ Hrun) as (Hmt & _ & _).
  unfold main. rewrite Hrun, Hmt.
  set (mt := Meta 130 360 _ _ _ _ _).
  assert (Hw : within_widths mt)
    by (unfold within_widths, mt, SCALE; cbn [nlat nlon scale]; lia).
  assert (Hf : floats_fit mt) by (repeat split; vm_compute; reflexivity).
  rewrite (write_bin_ok _ _ _ _ _ _ (header_ok mt Hw Hf) Hsys). eauto.
Qed.

(** X14.  Whatever the provider does, a run that succeeds leaves in
    [OUTFILE] exactly 28 + 12 * 130 * 360 bytes and touches no other file:
    the first twelve are the magic, version 2, 130 and 360 in little-endian
    order, the scale 20 and the reserved 0; every payload value is a byte;
    and the byte at 28 + m*130*360 + i*360 + j is element (m, i, j) of the
    grid [build_grid] returned, whose metadata are those of the shipped
    configuration. *)
Theorem main_success_file {W : Type}
    (provider : call -> W -> result (list spec_float) * W)
    (cast_undefined : spec_float -> Z) (sys : os) (s : env (W:=W))
    (fs : gmap string (list Z)) s' fs' :
  main provider cast_undefined sys s fs = (Ok (), s', fs') ->
  exists grid bs,
    build_grid provider cast_undefined s
    = (Ok (grid, Meta 130 360 (F64.of_decimal (-645) 1) (F64.of_decimal (-1795) 1)
                   DLAT DLON SCALE), s') /\
    fs' = <[OUTFILE := bs]> fs /\
    length bs = (28 + 12 * 130 * 360)%nat /\
    take 12 bs = [84; 76; 66; 50; 2; 0; 130; 0; 104; 1; 20; 0] /\
    Forall (fun x => 0 <= x < 256) (drop 28 bs) /\
    forall m i j : nat, (i < 130)%nat -> (j < 360)%nat ->
      bs !! (28 + m * 130 * 360 + i * 360 + j)%nat = vget grid m i j.
Proof.
  unfold main.
  destruct (build_grid provider cast_undefined s) as [[[grid mt]|e0] s0] eqn:Hb;
    [|discriminate].
  destruct (shipped_meta _ _ _ _ _ _ Hb) as (-> & Hs & Hby).
  set (mt := Meta 130 360 _ _ _ _ _).
  assert (Hw : within_widths mt)
    by (unfold within_widths, mt, SCALE; cbn [nlat nlon scale]; lia).
  assert (Hf : floats_fit mt) by (repeat split; vm_compute; reflexivity).
  pose proof (header_ok mt Hw Hf) as Hh.
  match type of Hh with _ = Ok ?x => set (hb := x) in * end.
  assert (Hlen : length hb = 28%nat) by reflexivity.
  destruct (write_bin sys OUTFILE grid mt fs) as [r fs1] eqn:E.
  intros H. injection H as -> <- <-.
  destruct (write_bin_inv _ _ _ _ _ _ E) as (h & Hh' & ->).
  rewrite Hh in Hh'. injection Hh' as <-.
  exists grid, (hb ++ tobytes grid). split; [reflexivity|]. split; [reflexivity|].
  split; [|split; [|split]].
  - rewrite length_app, Hlen, (length_tobytes 12 _ _ grid Hs). reflexivity.
  - reflexivity.
  - rewrite drop_app_length' by exact Hlen. unfold tobytes.
    apply Forall_join. unfold all_bytes in Hby.
    apply (Forall_join (Forall (fun x => 0 <= x < 256))). exact Hby.
  - intros m i j Hi Hj.
    rewrite <- (tobytes_lookup 12 130 360 grid m i j Hs) by lia.
    rewrite lookup_app_r by lia. f_equal. lia.
Qed.

Lemma main_success_file_witness :
  exists s' bs,
    main (flat_provider (F64.of_decimal 307 2)) cast_zero sound (Env () []) ∅
    = (Ok (), s', <[OUTFILE := bs]> ∅) /\
    length bs = (28 + 12 * 130 * 360)%nat /\
    bs !! 8%nat = Some 104.
Proof.
  destruct (main_succeeds (flat_provider (F64.of_decimal 307 2)) cast_zero sound
              (fun _ _ => replicate 12 (F64.of_decimal 307 2)) (Env () []) ∅
              (fun lat lon s0 => ex_intro _ _ eq_refl) (fun _ _ => eq_refl)
              (sound_writable _))
    as (s' & fs' & E).
  destruct (main_success_file _ _ _ _ _ _ _ E)
    as (grid & bs & _ & Hfs & Hlen & Htake & _).
  exists s', bs. split; [rewrite <- Hfs; exact E|]. split; [exact Hlen|].
  rewrite <- (lookup_take_lt bs 12 8) by lia. rewrite Htake. reflexivity.
Defined.

